(** * PDF Buddy: the ingestion worker and the text-search server

    A shallow embedding of the two server-side programs of the repository:

    - the worker ([extractPDFText], [extractPageReference] and the job
      handler given to [new Worker (...)]): text extraction with its fallback,
      the sliding-window chunker, the embedding loop and the persistence of
      a document record or of an error record;
    - the HTTP server ([listProcessedPDFs], [getPDFContent], [searchPDFs],
      [extractPageNumberFromContext] and the target resolution of [/chat],
      [/pdfs], [/recent]).

    JavaScript strings are sequences of UTF-16 code units: a [text] is a
    [list N].  What the programs obtain from outside (the PDF library, the
    embedding service, the UTF-8 decoder of [Buffer.toString], [JSON.parse],
    [JSON.stringify], [String.prototype.toLowerCase], the clock) enters as
    Section variables.  The writes of a document record are taken to
    succeed; those of an error record, whose directory name is not cut,
    fail when the name is longer than the file system allows, and the
    handler catches that.  Reads fail when the file is absent. *)

From Stdlib Require Import Ascii String DecimalString.
From Stdlib Require Import List Bool Arith NArith ZArith Lia.
From Stdlib Require QArith_base.
From Stdlib Require DecimalPos DecimalN.
From Stdlib Require Import Permutation Sorted.
Import ListNotations.

Set Warnings "-register-all,-abstract-large-number".

(** ** JavaScript strings *)

Module Js.

Definition text := list N.

(** A literal of the source, as code units. *)
Definition lit (s : string) : text := map N_of_ascii (list_ascii_of_string s).
Arguments lit s%_string.

Fixpoint text_eqb (a b : text) : bool :=
  match a, b with
  | [], [] => true
  | x :: a', y :: b' => N.eqb x y && text_eqb a' b'
  | _, _ => false
  end.

(** [s.substring(a, b)]: the arguments are swapped when [a > b], and both
    are clamped to the length. *)
Definition substring (a b : nat) (s : text) : text :=
  let lo := Nat.min a b in
  let hi := Nat.max a b in
  firstn (hi - lo) (skipn lo s).

(** White space and line terminators, the code units [trim] removes. *)
Definition is_space (c : N) : bool :=
  ((9 <=? c) && (c <=? 13) || (c =? 32) || (c =? 160) || (c =? 5760)
   || (8192 <=? c) && (c <=? 8202) || (c =? 8232) || (c =? 8233)
   || (c =? 8239) || (c =? 8287) || (c =? 12288) || (c =? 65279))%N.

Fixpoint trimStart (s : text) : text :=
  match s with
  | [] => []
  | c :: s' => if is_space c then trimStart s' else s
  end.

Definition trimEnd (s : text) : text := rev (trimStart (rev s)).

Definition trim (s : text) : text := trimEnd (trimStart s).

Fixpoint startsWith (p s : text) : bool :=
  match p, s with
  | [], _ => true
  | x :: p', y :: s' => N.eqb x y && startsWith p' s'
  | _ :: _, [] => false
  end.

(** [s.indexOf(p)] counted from position [from]; [-1] when [p] does not
    occur. *)
Fixpoint indexOf_from (from : Z) (p s : text) : Z :=
  if startsWith p s then from
  else match s with
       | [] => (-1)%Z
       | _ :: s' => indexOf_from (from + 1)%Z p s'
       end.

Definition indexOf (p s : text) : Z := indexOf_from 0 p s.

Fixpoint includes (p s : text) : bool :=
  startsWith p s ||
  match s with
  | [] => false
  | _ :: s' => includes p s'
  end.

(** [s.split(sep)] for a one-unit separator: [cur] is the piece being read,
    in reverse. *)
Fixpoint split_go (sep : N) (cur : text) (s : text) : list text :=
  match s with
  | [] => [rev cur]
  | c :: s' => if N.eqb c sep then rev cur :: split_go sep [] s'
               else split_go sep (c :: cur) s'
  end.

Definition split (sep : N) (s : text) : list text := split_go sep [] s.

Fixpoint join (sep : text) (l : list text) : text :=
  match l with
  | [] => []
  | [x] => x
  | x :: l' => x ++ sep ++ join sep l'
  end.

(** Decimal rendering of a number inside a template literal. *)
Definition decimal (n : N) : text := lit (NilEmpty.string_of_uint (N.to_uint n)).

Definition is_digit (c : N) : bool := ((48 <=? c) && (c <=? 57))%N.

Fixpoint take_digits (s : text) : text * text :=
  match s with
  | [] => ([], [])
  | c :: s' => if is_digit c
               then let '(d, r) := take_digits s' in (c :: d, r)
               else ([], s)
  end.

(** A number as [parseInt] gives it for a run of digits: a non-negative
    integer that a double holds, or [Infinity]. *)
Inductive number : Type :=
| Finite (n : N)
| Infinity.

(** The integer a run of decimal digits denotes. *)
Definition digits_value (d : text) : N :=
  fold_left (fun acc c => (10 * acc + (c - 48))%N) d 0%N.

(** The Number value of the integer [n]: [n] itself below [2^53]; from
    there on the nearest double, which keeps the 53 leading bits and
    rounds the rest to nearest, a tie going to the even neighbour; and
    [Infinity] when the rounded value reaches [2^1024]. *)
Definition to_double (n : N) : number :=
  if (n <? 2 ^ 53)%N then Finite n
  else
    let e := (N.log2 n - 52)%N in
    let q := N.shiftr n e in
    let r := (n - N.shiftl q e)%N in
    let half := N.shiftl 1 (e - 1) in
    let q' :=
      if (half <? r)%N || ((r =? half)%N && N.odd q) then (q + 1)%N else q in
    let v := N.shiftl q' e in
    if (v <? 2 ^ 1024)%N then Finite v else Infinity.

(** [parseInt] on a run of decimal digits. *)
Definition parseInt (d : text) : number := to_double (digits_value d).

(** One attempt of the regular expression [/\[Page (\d+)\]/] at the head
    of [s]: the digits are taken greedily, and since [\]] is no digit no
    shorter run can succeed. *)
Definition match_page_here (s : text) : option number :=
  if startsWith (lit "[Page ") s then
    let '(d, r) := take_digits (skipn 6 s) in
    match d, r with
    | _ :: _, 93%N :: _ => Some (parseInt d)
    | _, _ => None
    end
  else None.

(** [s.match(/\[Page (\d+)\]/)]: the leftmost match, and [parseInt] of its
    group; [None] is the source's [null]. *)
Fixpoint match_page (s : text) : option number :=
  match match_page_here s with
  | Some n => Some n
  | None => match s with
            | [] => None
            | _ :: s' => match_page s'
            end
  end.

Definition is_high_surrogate (c : N) : bool := ((55296 <=? c) && (c <=? 56319))%N.
Definition is_low_surrogate (c : N) : bool := ((56320 <=? c) && (c <=? 57343))%N.

(** The string that comes back when [s] is written as UTF-8 and decoded
    again (it is [s.toWellFormed ()]): a surrogate that is not part of a
    pair comes back as U+FFFD, every other unit as it is. *)
Fixpoint toWellFormed (s : text) : text :=
  match s with
  | [] => []
  | c :: s' =>
      if is_high_surrogate c then
        match s' with
        | c' :: s'' =>
            if is_low_surrogate c' then c :: c' :: toWellFormed s''
            else 65533%N :: toWellFormed s'
        | [] => [65533%N]
        end
      else if is_low_surrogate c then 65533%N :: toWellFormed s'
      else c :: toWellFormed s'
  end.

End Js.

(** ** Values shared by the worker and the server *)

(** A JSON value; numbers are rationals. *)
Inductive json : Type :=
| JNull
| JBool (b : bool)
| JNum (x : QArith_base.Q)
| JStr (s : Js.text)
| JArr (l : list json)
| JObj (fields : list (Js.text * json)).

Definition JInt (n : N) : json := JNum (QArith_base.Qmake (Z.of_N n) 1).
Definition JNat (n : nat) : json := JInt (N.of_nat n).

(** A thrown [Error]. *)
Record error : Type := Error { message : Js.text; stack : Js.text }.

(** The outcome of code that may throw. *)
Inductive result (A : Type) : Type :=
| Ok (a : A)
| Throw (e : error).
Arguments Ok {A} a.
Arguments Throw {A} e.

(** A file of the storage tree, as it was written: from a [Buffer], or
    from a string, which [writeFile] encodes as UTF-8. *)
Inductive content : Type :=
| Bytes (b : list Byte.byte)
| Text (t : Js.text).

(** An entry below [STORAGE_DIR], named by its path from there, together
    with the files in it.  A name without separator is a child of
    [STORAGE_DIR], as [readdir] with [withFileTypes] shows it; a name with
    separators is a directory further down, which a recursive [mkdir]
    makes when the name it is given holds them. *)
Record dirent : Type := Dirent {
  d_name : Js.text;
  d_isDirectory : bool;
  d_files : list (Js.text * content)
}.

Definition storage := list dirent.

Fixpoint lookup_file (name : Js.text) (files : list (Js.text * content))
  : option content :=
  match files with
  | [] => None
  | (n, c) :: rest => if Js.text_eqb n name then Some c else lookup_file name rest
  end.

Definition is_dir_named (name : Js.text) (d : dirent) : bool :=
  Js.text_eqb (d_name d) name && d_isDirectory d.

Fixpoint find_dir (name : Js.text) (st : storage) : option dirent :=
  match st with
  | [] => None
  | d :: rest => if is_dir_named name d then Some d else find_dir name rest
  end.

(** [path.join(STORAGE_DIR, name)]. *)
Definition STORAGE_DIR : Js.text := Js.lit "pdf-storage".
Definition storage_path (name : Js.text) : Js.text :=
  STORAGE_DIR ++ Js.lit "/" ++ name.

(** ** The worker *)

Import Js.

(** What the PDF library gives for a buffer: [getDocument (...).promise]
    rejects, or a document whose pages each give their text items or
    throw. *)
Inductive page_outcome : Type :=
| PageItems (strs : list text)
| PageError (e : error).

Inductive pdf_outcome : Type :=
| Document (pages : list page_outcome)
| LoadError (e : error).

(** [job.data], an object (or the JSON text of one) of which the handler
    reads [file], [path] and [filename]; [None] is [undefined]. *)
Record job_data : Type := JobData {
  data_file : option text;
  data_path : option text;
  data_filename : option text
}.

Record job : Type := Job { job_id : text; data : job_data }.

(** [a || b] on optional strings: [undefined] and the empty string are
    falsy. *)
Definition or_text (a b : option text) : option text :=
  match a with
  | Some (_ :: _) => a
  | _ => b
  end.

Definition slash : N := 47%N.
Definition backslash : N := 92%N.
Definition newline : N := 10%N.

(** [filePath.replace(/\\/g, '/')]. *)
Definition replace_backslashes (p : text) : text :=
  map (fun c => if N.eqb c backslash then slash else c) p.

Fixpoint drop_slashes (s : text) : text :=
  match s with
  | [] => []
  | c :: s' => if N.eqb c slash then drop_slashes s' else s
  end.

Fixpoint until_slash (s : text) : text :=
  match s with
  | [] => []
  | c :: s' => if N.eqb c slash then [] else c :: until_slash s'
  end.

(** POSIX [path.basename]: trailing separators are dropped, then the last
    segment is kept. *)
Definition basename (p : text) : text :=
  rev (until_slash (drop_slashes (rev p))).

(** The class [[a-zA-Z0-9.-]]. *)
Definition is_safe_char (c : N) : bool :=
  ((97 <=? c) && (c <=? 122) || (65 <=? c) && (c <=? 90)
   || (48 <=? c) && (c <=? 57) || (c =? 46) || (c =? 45))%N.

(** [fileName.replace(/[^a-zA-Z0-9.-]/g, '_')]. *)
Definition sanitize (fileName : text) : text :=
  map (fun c => if is_safe_char c then c else 95%N) fileName.

(** [extractPageReference]. *)
Definition extractPageReference (chunk : text) : option number :=
  match_page chunk.

Definition chunkSize : nat := 1000.
Definition overlap : nat := 200.

(** The chunking loop [for (let i = 0; i < extractedText.length;
    i += chunkSize - overlap)].  Each pushed chunk is recorded with the
    value of [i] it was cut at.  [None]: the fuel ran out. *)
Fixpoint chunk_loop (fuel : nat) (extractedText : text) (i : nat)
    (chunks : list (nat * text)) : option (list (nat * text)) :=
  match fuel with
  | O => None
  | S fuel' =>
      if i <? length extractedText then
        let chunk := substring i (i + chunkSize) extractedText in
        let chunks' :=
          if 0 <? length (trim chunk) then chunks ++ [(i, chunk)] else chunks in
        if 50 <=? length chunks' then Some chunks'
        else chunk_loop fuel' extractedText (i + (chunkSize - overlap)) chunks'
      else Some chunks
  end.

(** The chunker of the job handler, with the start offset of each chunk
    ([0] for the single chunk of a short text). *)
Definition chunks_with_offsets (extractedText : text) : option (list (nat * text)) :=
  if chunkSize <? length extractedText
  then chunk_loop (S (length extractedText)) extractedText 0 []
  else Some [(0, extractedText)].

Definition split_chunks (extractedText : text) : list text :=
  match chunks_with_offsets extractedText with
  | Some l => map snd l
  | None => []
  end.

Definition chunk_offsets (extractedText : text) : list nat :=
  match chunks_with_offsets extractedText with
  | Some l => map fst l
  | None => []
  end.

(** Storage writes.  [mkdir (path.join (STORAGE_DIR, name),
    {recursive: true})] creates the directory of that path unless it is
    there; [writeFile] sets a file of it. *)
Definition mkdir (name : text) (st : storage) : storage :=
  if existsb (is_dir_named name) st then st else st ++ [Dirent name true []].

Fixpoint set_file (file : text) (c : content) (files : list (text * content))
  : list (text * content) :=
  match files with
  | [] => [(file, c)]
  | (n, c0) :: rest =>
      if text_eqb n file then (n, c) :: rest else (n, c0) :: set_file file c rest
  end.

Fixpoint writeFile (dir file : text) (c : content) (st : storage) : storage :=
  match st with
  | [] => []
  | d :: rest =>
      if is_dir_named dir d
      then Dirent (d_name d) true (set_file file c (d_files d)) :: rest
      else d :: writeFile dir file c rest
  end.

(** One element of [chunksWithEmbeddings]. *)
Record embedded : Type := Embedded {
  e_id : text;
  e_content : text;
  e_embedding : list QArith_base.Q;
  e_chunkIndex : nat;
  e_pageRef : option number
}.

(** The value the handler returns on success. *)
Record job_result : Type := JobResult {
  r_success : bool;
  r_fileName : text;
  r_pdfId : text;
  r_textLength : nat;
  r_chunks : nat;
  r_embeddings : nat;
  r_path : text;
  r_extractionSuccess : bool
}.

(** How a job ends: the handler returns, or it throws and the queue marks
    the job failed. *)
Inductive outcome : Type :=
| Completed (r : job_result)
| Failed (e : error).

(** The readings of the clock: [Date.now ()] and the two
    [new Date ().toISOString ()]. *)
Record clock : Type := Clock {
  Date_now : N;
  savedAt_iso : text;
  processingTime_iso : text
}.

Section Worker.

(** [buffer.toString('utf-8', 0, end)] on the bytes it is given. *)
Variable utf8_decode : list Byte.byte -> text.
(** [pdfjsLib.getDocument] and the pages of the document. *)
Variable getDocument : list Byte.byte -> pdf_outcome.
(** [model.embedContent (chunk)] followed by [result.embedding.values],
    for the call made at index [i]. *)
Variable embedContent : nat -> text -> result (list QArith_base.Q).
(** [JSON.stringify (v, null, 2)]. *)
Variable JSON_stringify : json -> text.
(** The stack the engine attaches to [new Error (m)]. *)
Variable new_stack : text -> text.
(** [fs.access] and [fs.readFile] of a source path. *)
Variable fs_read : text -> result (list Byte.byte).

Definition new_Error (m : text) : error := Error m (new_stack m).

(** The page loop of [extractPDFText], [i] being the page number. *)
Fixpoint extract_pages (i : N) (pages : list page_outcome) (fullText : text)
  : text :=
  match pages with
  | [] => fullText
  | PageItems strs :: rest =>
      extract_pages (i + 1) rest
        (fullText ++ lit "[Page " ++ decimal i ++ lit "]" ++ [newline]
           ++ join (lit " ") strs ++ [newline; newline])
  | PageError _ :: rest =>
      extract_pages (i + 1) rest
        (fullText ++ lit "[Page " ++ decimal i ++ lit "] - Extraction failed"
           ++ [newline; newline])
  end.

(** The [try] block of [extractPDFText]. *)
Definition library_extraction (fileBuffer : list Byte.byte) : result text :=
  match getDocument fileBuffer with
  | LoadError e => Throw e
  | Document pages =>
      let text := trim (extract_pages 1 pages []) in
      if length text =? 0
      then Throw (new_Error (lit "No text could be extracted from PDF"))
      else Ok text
  end.

Definition keep_line (line : text) : bool :=
  (0 <? length (trim line))
  && negb (includes (lit "%PDF") line)
  && negb (includes (lit "xref") line).

(** The string [lines] of the fallback. *)
Definition fallback_lines (fileBuffer : list Byte.byte) : text :=
  let bufferString :=
    utf8_decode (firstn (Nat.min 10000 (length fileBuffer)) fileBuffer) in
  join [newline] (firstn 50 (filter keep_line (split newline bufferString))).

Definition fallback_marker : text :=
  lit "[PDF Extraction Failed - Using Fallback]" ++ [newline].

(** [extractPDFText]: the [try] block, and in its [catch] the fallback,
    none of whose steps throws, then the final [throw]. *)
Definition extractPDFText (fileBuffer : list Byte.byte) : result text :=
  match library_extraction fileBuffer with
  | Ok text => Ok text
  | Throw error =>
      let lines := fallback_lines fileBuffer in
      if 100 <? length lines then Ok (fallback_marker ++ lines)
      else Throw (new_Error (lit "PDF text extraction failed: " ++ message error))
  end.

(** The text the handler uses when [extractPDFText] throws. *)
Definition placeholder (fileName : text) : text :=
  lit "PDF: " ++ fileName ++ [newline; newline]
  ++ lit "Note: Text extraction partially failed. Some PDFs with complex formatting or images may not extract all text."
  ++ [newline; newline]
  ++ lit "Try asking questions about the PDF content anyway.".

(** The inner [try] of the handler: [extractedText] and
    [extractionSuccess]. *)
Definition extract_or_placeholder (fileBuffer : list Byte.byte) (fileName : text)
  : text * bool :=
  match extractPDFText fileBuffer with
  | Ok text => (text, true)
  | Throw _ => (placeholder fileName, false)
  end.

(** The embedding loop [for (let i = 0; i < chunksToProcess; i++)]:
    [todo] iterations remain, [acc] is [chunksWithEmbeddings] and
    [calls] lists the calls made to the embedding service.  An error
    thrown in the body is caught and the loop goes on.  The counter
    [successfulEmbeddings], which is only logged, is left out. *)
Fixpoint embed_loop (jobId : text) (chunks : list text) (todo i : nat)
    (acc : list embedded) (calls : list (nat * text))
  : list embedded * list (nat * text) :=
  match todo with
  | O => (acc, calls)
  | S todo' =>
      match nth_error chunks i with
      | None => embed_loop jobId chunks todo' (S i) acc calls
      | Some chunk =>
          if length chunk <? 20
          then embed_loop jobId chunks todo' (S i) acc calls
          else
            match embedContent i chunk with
            | Ok embedding =>
                embed_loop jobId chunks todo' (S i)
                  (acc ++ [Embedded (jobId ++ lit "_" ++ decimal (N.of_nat i))
                             chunk embedding i (extractPageReference chunk)])
                  (calls ++ [(i, chunk)])
            | Throw _ =>
                embed_loop jobId chunks todo' (S i) acc (calls ++ [(i, chunk)])
            end
      end
  end.

Definition generate_embeddings (jobId : text) (chunks : list text)
  : list embedded * list (nat * text) :=
  let chunksToProcess := Nat.min (length chunks) 10 in
  embed_loop jobId chunks chunksToProcess 0 [] [].

(** [JSON.stringify] writes [null] for [Infinity], as for [null]. *)
Definition json_of_pageRef (p : option number) : json :=
  match p with
  | Some (Finite n) => JInt n
  | Some Infinity => JNull
  | None => JNull
  end.

Definition json_of_embedded (e : embedded) : json :=
  JObj [ (lit "id", JStr (e_id e));
         (lit "content", JStr (e_content e));
         (lit "embedding", JArr (map JNum (e_embedding e)));
         (lit "chunkIndex", JNat (e_chunkIndex e));
         (lit "pageRef", json_of_pageRef (e_pageRef e)) ].

(** The object [metadata] of a document record. *)
Definition metadata_json (j : job) (clk : clock) (fileName filePath savePath : text)
    (fileSize textLength chunksCount embeddingsGenerated : nat)
    (extractionSuccess : bool) : json :=
  JObj [ (lit "jobId", JStr (job_id j));
         (lit "fileName", JStr fileName);
         (lit "originalName",
           JStr (match data_filename (data j) with
                 | Some (c :: s) => c :: s
                 | _ => fileName
                 end));
         (lit "savedAt", JStr (savedAt_iso clk));
         (lit "fileSize", JNat fileSize);
         (lit "textLength", JNat textLength);
         (lit "chunksCount", JNat chunksCount);
         (lit "embeddingsGenerated", JNat embeddingsGenerated);
         (lit "extractionSuccess", JBool extractionSuccess);
         (lit "filePath", JStr filePath);
         (lit "storagePath", JStr savePath);
         (lit "processingTime", JStr (processingTime_iso clk)) ].

(** The object [errorMeta] of an error record. *)
Definition errorMeta_json (j : job) (clk : clock) (fileName : text) (e : error)
  : json :=
  JObj [ (lit "jobId", JStr (job_id j));
         (lit "fileName", JStr fileName);
         (lit "error", JStr (message e));
         (lit "savedAt", JStr (savedAt_iso clk));
         (lit "stack", JStr (stack e)) ].

Definition error_dir_name (clk : clock) (fileName : text) : text :=
  lit "error_" ++ sanitize fileName ++ lit "_" ++ decimal (Date_now clk).

(** The longest name the file system takes for one directory entry. *)
Definition NAME_MAX : nat := 255.

(** The [catch] block of the handler, up to the final [throw error].  The
    name of the directory holds the whole sanitised file name: it is not
    cut as the name of a document record is.  All its units are ASCII, so
    it has as many bytes as units, and when they are more than
    [NAME_MAX] the [mkdir] throws.  The inner [catch] only logs that, and
    nothing is written. *)
Definition save_error_record (j : job) (clk : clock) (fileName : text)
    (e : error) (st : storage) : storage :=
  let errorDir := error_dir_name clk fileName in
  if length errorDir <=? NAME_MAX then
    writeFile errorDir (lit "error.json")
      (Text (JSON_stringify (errorMeta_json j clk fileName e)))
      (mkdir errorDir st)
  else st.

Definition document_dir_name (j : job) (clk : clock) (fileName : text) : text :=
  firstn 100 (sanitize fileName) ++ lit "_" ++ job_id j ++ lit "_"
  ++ decimal (Date_now clk).

(** The part of the [try] block that follows the reading of the file.
    The name of the directory holds at most 100 units of the file name,
    then the id of the job and the time; its [mkdir] and the writes below
    it are taken to succeed. *)
Definition process_buffer (j : job) (clk : clock) (filePath fileName : text)
    (fileBuffer : list Byte.byte) (st : storage) : job_result * storage :=
  let '(extractedText, extractionSuccess) :=
    extract_or_placeholder fileBuffer fileName in
  let chunks := split_chunks extractedText in
  let chunksWithEmbeddings := fst (generate_embeddings (job_id j) chunks) in
  let dir := document_dir_name j clk fileName in
  let savePath := storage_path dir in
  let st1 := mkdir dir st in
  let st2 := writeFile dir (lit "original.pdf") (Bytes fileBuffer) st1 in
  let st3 := writeFile dir (lit "extracted_text.txt") (Text extractedText) st2 in
  let st4 := writeFile dir (lit "chunks.json")
               (Text (JSON_stringify (JArr (map JStr chunks)))) st3 in
  let st5 :=
    if 0 <? length chunksWithEmbeddings
    then writeFile dir (lit "chunks_with_embeddings.json")
           (Text (JSON_stringify (JArr (map json_of_embedded chunksWithEmbeddings))))
           st4
    else st4 in
  let st6 := writeFile dir (lit "metadata.json")
               (Text (JSON_stringify
                        (metadata_json j clk fileName filePath savePath
                           (length fileBuffer) (length extractedText)
                           (length chunks) (length chunksWithEmbeddings)
                           extractionSuccess))) st5 in
  (JobResult true fileName (basename savePath) (length extractedText)
     (length chunks) (length chunksWithEmbeddings) savePath extractionSuccess,
   st6).

(** The job handler: the outcome of the job and the storage it leaves. *)
Definition handler (j : job) (clk : clock) (st : storage) : outcome * storage :=
  match or_text (data_file (data j)) (data_path (data j)) with
  | None =>
      (Failed (new_Error
         (lit "Cannot read properties of undefined (reading 'replace')")), st)
  | Some p =>
      let filePath := replace_backslashes p in
      let fileName := basename filePath in
      match fs_read filePath with
      | Throw e => (Failed e, save_error_record j clk fileName e st)
      | Ok fileBuffer =>
          let '(r, st') := process_buffer j clk filePath fileName fileBuffer st in
          (Completed r, st')
      end
  end.

End Worker.

(** ** The server *)

(** A JavaScript value read from parsed JSON; [None] is [undefined]. *)
Definition jsval := option json.

Definition truthy (v : jsval) : bool :=
  match v with
  | None => false
  | Some JNull => false
  | Some (JBool b) => b
  | Some (JNum x) => negb (Z.eqb (QArith_base.Qnum x) 0)
  | Some (JStr s) => negb (length s =? 0)
  | Some (JArr _) => true
  | Some (JObj _) => true
  end.

(** [a || b]. *)
Definition js_or (a b : jsval) : jsval := if truthy a then a else b.

Fixpoint lookup_field (k : text) (fields : list (text * json)) : jsval :=
  match fields with
  | [] => None
  | (n, v) :: rest => if text_eqb n k then Some v else lookup_field k rest
  end.

(** [metadata.k] for one of the keys the server reads, on a value other
    than [null]: only an object can have it. *)
Definition get (k : text) (metadata : json) : jsval :=
  match metadata with
  | JObj fields => lookup_field k fields
  | _ => None
  end.

(** An element of the list [listProcessedPDFs] returns. *)
Record pdf : Type := Pdf {
  id : text;
  name : jsval;
  originalName : jsval;
  savedAt : jsval;
  fileSize : jsval;
  textLength : jsval;
  chunks : jsval;
  embeddings : jsval;
  extractionSuccess : bool;
  path : text
}.

(** The [pageRef] property of a search result: absent, or [null] or a
    number. *)
Inductive pageRef_field : Type :=
| NoPageRef
| PageRef (v : option number).

Inductive matchType : Type := text_search | filename.

Record search_result : Type := SearchResult {
  sr_pdfId : text;
  sr_name : jsval;
  sr_score : Z;
  sr_context : text;
  sr_pageRef : pageRef_field;
  sr_matchType : matchType
}.

(** [Array.prototype.sort] with a comparator: a stable insertion sort.
    [cmp a b] is the comparator's number, [None] when it is [NaN], which
    [sort] treats as [0].  A stable sort is determined by a consistent
    comparator; with an inconsistent one (invalid dates) the engine may
    order otherwise, and only the elements of the result are used then. *)
Section Sort.
Variable A : Type.
Variable cmp : A -> A -> option Z.

Definition goes_after (a b : A) : bool :=
  match cmp a b with
  | Some z => (0 <? z)%Z
  | None => false
  end.

Fixpoint sort_insert (x : A) (l : list A) : list A :=
  match l with
  | [] => [x]
  | y :: l' => if goes_after x y then y :: sort_insert x l' else x :: l
  end.

Definition js_sort (l : list A) : list A := fold_right sort_insert [] l.
End Sort.
Arguments goes_after {A} cmp a b.
Arguments sort_insert {A} cmp x l.
Arguments js_sort {A} cmp l.

(** [extractPageNumberFromContext]. *)
Definition extractPageNumberFromContext (context : text) : option number :=
  match_page context.

Section Server.

(** [buffer.toString('utf-8')], for a file stored as bytes. *)
Variable utf8_decode : list Byte.byte -> text.
(** [JSON.parse]; [None] when it throws. *)
Variable JSON_parse : text -> option json.
(** [String.prototype.toLowerCase]. *)
Variable toLowerCase : text -> text.
(** The time value of [new Date (v)]; [None] for an invalid date. *)
Variable Date_value : jsval -> option Z.

(** [fs.readFile (path.join (STORAGE_DIR, dir, file), 'utf-8')]; [None]
    when it throws.  [fs] is [None] when [STORAGE_DIR] is missing.  A file
    written from a string went through UTF-8 on its way. *)
Definition readFile (fs : option storage) (dir file : text) : option text :=
  match fs with
  | None => None
  | Some st =>
      match find_dir dir st with
      | None => None
      | Some d =>
          match lookup_file file (d_files d) with
          | Some (Text t) => Some (toWellFormed t)
          | Some (Bytes b) => Some (utf8_decode b)
          | None => None
          end
      end
  end.

(** [fs.readdir (STORAGE_DIR, { withFileTypes: true })]: the children of
    [STORAGE_DIR].  A directory further down is none; the child it lies
    below, when it is no entry of its own, holds no [metadata.json] for
    the listing to read and is left out here. *)
Definition readdir (st : storage) : list dirent :=
  filter (fun d => forallb (fun c => negb (N.eqb c slash)) (d_name d)) st.

(** The inner [try] of [listProcessedPDFs]; [None] when it throws and
    the entry is skipped. *)
Definition pdf_of_item (fs : option storage) (item : dirent) : option pdf :=
  match readFile fs (d_name item) (lit "metadata.json") with
  | None => None
  | Some t =>
      match JSON_parse t with
      | None => None
      | Some JNull => None
      | Some metadata =>
          Some (Pdf (d_name item)
                  (get (lit "fileName") metadata)
                  (js_or (get (lit "originalName") metadata)
                         (get (lit "fileName") metadata))
                  (get (lit "savedAt") metadata)
                  (get (lit "fileSize") metadata)
                  (js_or (get (lit "textLength") metadata) (Some (JInt 0)))
                  (js_or (get (lit "chunksCount") metadata) (Some (JInt 0)))
                  (js_or (get (lit "embeddingsGenerated") metadata) (Some (JInt 0)))
                  (match get (lit "extractionSuccess") metadata with
                   | Some (JBool false) => false
                   | _ => true
                   end)
                  (storage_path (d_name item)))
      end
  end.

Fixpoint collect_pdfs (fs : option storage) (items : list dirent) : list pdf :=
  match items with
  | [] => []
  | item :: rest =>
      if d_isDirectory item && negb (startsWith (lit "error_") (d_name item))
      then match pdf_of_item fs item with
           | Some p => p :: collect_pdfs fs rest
           | None => collect_pdfs fs rest
           end
      else collect_pdfs fs rest
  end.

(** [new Date (b.savedAt) - new Date (a.savedAt)]. *)
Definition by_savedAt (a b : pdf) : option Z :=
  match Date_value (savedAt b), Date_value (savedAt a) with
  | Some tb, Some ta => Some (tb - ta)%Z
  | _, _ => None
  end.

Definition listProcessedPDFs (fs : option storage) : list pdf :=
  match fs with
  | None => []
  | Some st => js_sort by_savedAt (collect_pdfs fs (readdir st))
  end.

(** [getPDFContent]; [None] is the [null] it returns when the read
    throws. *)
Definition getPDFContent (fs : option storage) (pdfId : text) (maxLength : nat)
  : option text :=
  match readFile fs pdfId (lit "extracted_text.txt") with
  | None => None
  | Some text =>
      if maxLength <? length text
      then Some (substring 0 maxLength text ++ lit "... (truncated)")
      else Some text
  end.

(** The result pushed on a content match. *)
Definition content_result (p : pdf) (queryLower content : text) : search_result :=
  let contentLower := toLowerCase content in
  let index := indexOf queryLower contentLower in
  let contextStart := Z.max 0 (index - 150) in
  let contextEnd :=
    Z.min (Z.of_nat (length content))
          (index + Z.of_nat (length queryLower) + 150) in
  let context :=
    substring (Z.to_nat contextStart) (Z.to_nat contextEnd) content in
  SearchResult (id p) (name p) 100
    (lit "..." ++ context ++ lit "...")
    (PageRef (extractPageNumberFromContext context))
    text_search.

(** The result pushed on a filename match. *)
Definition filename_result (p : pdf) (n : text) : search_result :=
  SearchResult (id p) (name p) 80 (lit "Filename matches: " ++ n)
    NoPageRef filename.

(** One iteration of the loop of [searchPDFs]: the results it pushes. *)
Definition search_one (fs : option storage) (queryLower : text) (p : pdf)
  : list search_result :=
  match getPDFContent fs (id p) 5000 with
  | None => []
  | Some [] => []
  | Some content =>
      let hit :=
        if includes queryLower (toLowerCase content)
        then [content_result p queryLower content] else [] in
      match name p with
      | Some (JStr n) =>
          hit ++ (if includes queryLower (toLowerCase n)
                  then [filename_result p n] else [])
      | _ => hit
      end
  end.

Definition by_score (a b : search_result) : option Z :=
  Some (sr_score b - sr_score a)%Z.

Definition pdfsToSearch (pdfs : list pdf) (pdfId : option text) : list pdf :=
  match pdfId with
  | Some (c :: s) => filter (fun p => text_eqb (id p) (c :: s)) pdfs
  | _ => pdfs
  end.

Definition searchPDFs (fs : option storage) (query : text) (pdfId : option text)
  : list search_result :=
  let pdfs := listProcessedPDFs fs in
  let queryLower := toLowerCase query in
  js_sort by_score
    (flat_map (search_one fs queryLower) (pdfsToSearch pdfs pdfId)).

(** The target resolution of [/chat]. *)
Inductive chat_target : Type :=
| NoPDFs
| NotFound (availablePDFs : list (text * jsval))
| Target (targetPdf : pdf).

Definition resolve_target (fs : option storage) (pdfId : option text)
  : chat_target :=
  let pdfs := listProcessedPDFs fs in
  match pdfs with
  | [] => NoPDFs
  | first :: _ =>
      match pdfId with
      | Some (c :: s) =>
          match find (fun p => text_eqb (id p) (c :: s)) pdfs with
          | Some targetPdf => Target targetPdf
          | None => NotFound (map (fun p => (id p, name p)) pdfs)
          end
      | _ => Target first
      end
  end.

(** The documents [/recent] reports. *)
Definition recent (fs : option storage) : list pdf :=
  firstn 5 (listProcessedPDFs fs).

End Server.

(** ** Definitions used by the statements *)

(** *** The chunker *)

Definition ceil_div (a b : nat) : nat := (a + b - 1) / b.

(** The window the loop cuts at its [k]-th iteration, with its offset. *)
Definition window (t : text) (k : nat) : nat * text :=
  (k * (chunkSize - overlap),
   substring (k * (chunkSize - overlap)) (k * (chunkSize - overlap) + chunkSize) t).

Definition windows_from (t : text) (k n : nat) : list (nat * text) :=
  map (window t) (seq k n).

(** All windows of a text: one per offset [0], [800], [1600], ... below
    its length. *)
Definition windows (t : text) : list (nat * text) :=
  windows_from t 0 (ceil_div (length t) (chunkSize - overlap)).

Definition nonblank (w : nat * text) : bool := 0 <? length (trim (snd w)).

Definition by_offset (a b : nat * text) : Prop := fst a < fst b.


(** *** Instances for the examples *)

(** The UTF-8 decoder on bytes below 128. *)
Definition ascii_decode (b : list Byte.byte) : text :=
  map (fun x => N_of_ascii (ascii_of_byte x)) b.

Definition ascii_bytes (s : string) : list Byte.byte :=
  map byte_of_ascii (list_ascii_of_string s).

(** [toLowerCase] on code units below 128. *)
Definition ascii_lower (s : text) : text :=
  map (fun c => if ((65 <=? c) && (c <=? 90))%N then (c + 32)%N else c) s.

Definition sample_stack (m : text) : text := lit "Error: " ++ m.

(** A PDF library that rejects every buffer. *)
Definition broken_pdf (b : list Byte.byte) : pdf_outcome :=
  LoadError (Error (lit "Invalid PDF structure.") (lit "InvalidPDFException")).

(** A text of 1601 letters. *)
Definition long_text : text := repeat 97%N 1601.

(** A buffer of one line, 101 letters and a space. *)
Definition one_line_buffer : list Byte.byte :=
  repeat Byte.x78 101 ++ [Byte.x20; Byte.x0a].

(** A compact JSON printer. *)
Fixpoint sample_stringify (v : json) : text :=
  match v with
  | JNull => lit "null"
  | JBool true => lit "true"
  | JBool false => lit "false"
  | JNum x => decimal (Z.to_N (QArith_base.Qnum x))
  | JStr s => [34%N] ++ s ++ [34%N]
  | JArr l => lit "[" ++ join (lit ",") (map sample_stringify l) ++ lit "]"
  | JObj fields =>
      lit "{"
      ++ join (lit ",")
           (map (fun kv => [34%N] ++ fst kv ++ [34%N] ++ lit ":"
                           ++ sample_stringify (snd kv)) fields)
      ++ lit "}"
  end.

(** An embedding service that is out of quota. *)
Definition no_quota (i : nat) (chunk : text) : result (list QArith_base.Q) :=
  Throw (Error (lit "429 Too Many Requests") (lit "GoogleGenerativeAIError")).

(** A source tree with one file, [uploads/17-report.pdf], of one line. *)
Definition sample_source (p : text) : result (list Byte.byte) :=
  if text_eqb p (lit "uploads/17-report.pdf") then Ok (ascii_bytes "%PDF-1.4 broken")
  else Throw (Error (lit "ENOENT: no such file or directory, access '" ++ p ++ lit "'")
                    (lit "Error: ENOENT")).

Definition sample_job : job :=
  Job (lit "7")
      (JobData None (Some (lit "uploads/17-report.pdf")) (Some (lit "report.pdf"))).

Definition missing_job : job :=
  Job (lit "8") (JobData None (Some (lit "uploads\gone.pdf")) (Some (lit "gone.pdf"))).

Definition sample_clock : clock :=
  Clock 1700000000000%N (lit "2023-11-14T22:13:20.000Z") (lit "2023-11-14T22:13:20.001Z").

(** *** The storage tree *)

(** The file [file] of the directory [dir], when both exist. *)
Definition stored_file (st : storage) (dir file : text) : option content :=
  match find_dir dir st with
  | Some d => lookup_file file (d_files d)
  | None => None
  end.

(** *** The fallback extraction *)

(** [p] occurs in [s]. *)
Definition occurs (p s : text) : Prop := exists a r, s = a ++ p ++ r.

(** The lines the fallback discards: empty after trimming, or holding
    one of the tokens [%PDF], [xref]. *)
Definition discarded (line : text) : Prop :=
  trim line = [] \/ occurs (lit "%PDF") line \/ occurs (lit "xref") line.

(** The chunk list of [sample_job]: the placeholder text alone. *)
Definition sample_chunks : list text := [placeholder (lit "17-report.pdf")].

(** *** The search *)

(** [p] occurs in [s] after the prefix [a], and nowhere earlier. *)
Definition first_occurrence (p s a : text) : Prop :=
  (exists r, s = a ++ p ++ r)
  /\ forall a' r', s = a' ++ p ++ r' -> length a <= length a'.

(** A marker [[Page d]] for a run [d] of digits. *)
Definition page_marker (d : text) : text := lit "[Page " ++ d ++ lit "]".

Definition digits (d : text) : Prop := d <> [] /\ forallb is_digit d = true.

(** The marker of [d] stands in [s] after the prefix [a]. *)
Definition marker_at (s a d : text) : Prop :=
  digits d /\ exists r, s = a ++ page_marker d ++ r.

(** The window of up to 150 units on each side of an occurrence of [q]
    that starts after [a] units of [content]. *)
Definition context_window (content : text) (a q : nat) : text :=
  substring (a - 150) (Nat.min (length content) (a + q + 150)) content.

Definition descending (a b : search_result) : Prop :=
  (sr_score b <= sr_score a)%Z.

(** A directory a read path may show: it is a directory among the
    children of the storage directory, its name does not start with
    [error_], and its [metadata.json] can be read and parses. *)
Definition discoverable (utf8_decode : list Byte.byte -> text)
    (JSON_parse : text -> option json) (fs : option storage) (i : text) : Prop :=
  exists st item t metadata,
    fs = Some st /\ In item (readdir st) /\ d_name item = i
    /\ d_isDirectory item = true
    /\ startsWith (lit "error_") i = false
    /\ readFile utf8_decode fs i (lit "metadata.json") = Some t
    /\ JSON_parse t = Some metadata.

(** The ids a read path shows: those of [/pdfs], the target of [/chat]
    or the documents it lists as available, the results of the search and
    the entries of [/recent]. *)
Definition surfaced (utf8_decode : list Byte.byte -> text)
    (JSON_parse : text -> option json) (toLowerCase : text -> text)
    (Date_value : jsval -> option Z) (fs : option storage)
    (query : text) (pdfId : option text) (i : text) : Prop :=
  In i (map id (listProcessedPDFs utf8_decode JSON_parse Date_value fs))
  \/ (exists p, resolve_target utf8_decode JSON_parse Date_value fs pdfId = Target p
                /\ id p = i)
  \/ (exists l, resolve_target utf8_decode JSON_parse Date_value fs pdfId = NotFound l
                /\ In i (map fst l))
  \/ In i (map sr_pdfId
             (searchPDFs utf8_decode JSON_parse toLowerCase Date_value fs query pdfId))
  \/ In i (map id (recent utf8_decode JSON_parse Date_value fs)).

(** *** Instances for the examples of the search *)

Definition report_metadata : json :=
  JObj [ (lit "fileName", JStr (lit "report.pdf"));
         (lit "savedAt", JStr (lit "2023-11-14T22:13:20.000Z")) ].

(** A parser that knows the one metadata file of the examples. *)
Definition sample_parse (t : text) : option json :=
  if text_eqb t (sample_stringify report_metadata) then Some report_metadata
  else None.

Definition sample_date (v : jsval) : option Z :=
  match v with
  | Some (JStr s) =>
      if text_eqb s (lit "2023-11-14T22:13:20.000Z")
      then Some 1700000000000%Z else None
  | Some (JNum x) => Some (QArith_base.Qnum x)
  | _ => None
  end.

(** A document directory whose extracted text is missing, beside an
    error record. *)
Definition unread_storage : option storage :=
  Some [ Dirent (lit "error_gone.pdf_1700000000000") true
           [(lit "error.json", Text (lit "{}"))];
         Dirent (lit "report.pdf_7_1700000000000") true
           [(lit "metadata.json", Text (sample_stringify report_metadata))] ].

(** The same document with its extracted text. *)
Definition read_storage : option storage :=
  Some [ Dirent (lit "error_gone.pdf_1700000000000") true
           [(lit "error.json", Text (lit "{}"))];
         Dirent (lit "report.pdf_7_1700000000000") true
           [(lit "metadata.json", Text (sample_stringify report_metadata));
            (lit "extracted_text.txt",
              Text (lit "[Page 4] The refund policy allows returns within 30 days."))] ].

(** The element [listProcessedPDFs] builds for that document. *)
Definition report_pdf : pdf :=
  Pdf (lit "report.pdf_7_1700000000000")
      (Some (JStr (lit "report.pdf")))
      (Some (JStr (lit "report.pdf")))
      (Some (JStr (lit "2023-11-14T22:13:20.000Z")))
      None
      (Some (JInt 0)) (Some (JInt 0)) (Some (JInt 0))
      true
      (lit "pdf-storage/report.pdf_7_1700000000000").

Definition report_text : text :=
  lit "[Page 4] The refund policy allows returns within 30 days.".

(** ** The rest of the server *)

(** *** The upload route *)

(** [req.file] as multer's disk storage leaves it. *)
Record uploaded_file : Type := UploadedFile {
  originalname : text;
  mimetype : text;
  file_path : text
}.

(** The [fileFilter] of the multer configuration: [true] accepts the
    file, [false] is the error [Only PDF files are allowed]. *)
Definition fileFilter (mime : text) : bool :=
  text_eqb mime (lit "application/pdf").

(** The [filename] function of the disk storage, for the readings [now]
    of [Date.now ()] and [random] of
    [Math.round (Math.random () * 1e9)]. *)
Definition upload_filename (now random : N) (original : text) : text :=
  (decimal now ++ lit "-" ++ decimal random) ++ lit "-" ++ original.

Inductive upload_response : Type :=
| UploadNoFile
| UploadQueued (fileName jobId : text)
| UploadFailed (details : text).

(** The handler of [POST /upload/pdf]: the response, and the job data
    given to [queue.add].  [queue_add] gives the id of the new job, or
    throws. *)
Definition upload_pdf (queue_add : job_data -> result text) (file : option uploaded_file)
  : upload_response * option job_data :=
  match file with
  | None => (UploadNoFile, None)
  | Some f =>
      let d := JobData None (Some (file_path f)) (Some (originalname f)) in
      match queue_add d with
      | Ok jobId => (UploadQueued (originalname f) jobId, Some d)
      | Throw e => (UploadFailed (message e), Some d)
      end
  end.

Section Chat.

Variable utf8_decode : list Byte.byte -> text.
Variable JSON_parse : text -> option json.
Variable toLowerCase : text -> text.
Variable Date_value : jsval -> option Z.
(** The string a template literal makes of a value. *)
Variable ToString : jsval -> text.
(** [genAI.getGenerativeModel ({ model })], [generateContent (prompt)]
    and [response.text ()], for a model name and a prompt. *)
Variable generateContent : text -> text -> result text.
(** The stack the engine attaches to [new Error (m)]. *)
Variable new_stack : text -> text.

(** *** [getPDFMetadata] and the route [/pdf/:id] *)

(** [getPDFMetadata]; [None] is the [null] it returns when the read or
    the parse throws. *)
Definition getPDFMetadata (fs : option storage) (pdfId : text) : option json :=
  match readFile utf8_decode fs pdfId (lit "metadata.json") with
  | Some t => JSON_parse t
  | None => None
  end.

(** [fs.access (path.join (STORAGE_DIR, pdfId))] succeeds.  The joined
    path is the directory above [STORAGE_DIR] for [..] and [STORAGE_DIR]
    itself for [.]; otherwise it is an entry of the storage tree, or a
    directory that one of them lies below. *)
Definition path_exists (fs : option storage) (pdfId : text) : bool :=
  if text_eqb pdfId (lit "..") then true
  else
    match fs with
    | None => false
    | Some st =>
        text_eqb pdfId (lit ".")
        || existsb (fun d => text_eqb (d_name d) pdfId
                             || startsWith (pdfId ++ [slash]) (d_name d)) st
    end.

(** An id that names a child of [STORAGE_DIR]: it holds no separator
    and is neither empty nor one of [.] and [..]. *)
Definition entry_name (pdfId : text) : bool :=
  negb (text_eqb pdfId []) && negb (text_eqb pdfId (lit "."))
  && negb (text_eqb pdfId (lit ".."))
  && forallb (fun c => negb (N.eqb c slash)) pdfId.

(** The directories [fs.readdir] shows below the entry [pdfId]: the
    next segment of the name of each entry that lies below it, once. *)
Definition add_name (n : text) (l : list text) : list text :=
  if existsb (text_eqb n) l then l else l ++ [n].

Definition subdirectories (pdfId : text) (st : storage) : list text :=
  fold_left
    (fun acc d =>
       if startsWith (pdfId ++ [slash]) (d_name d)
       then add_name (until_slash (skipn (S (length pdfId)) (d_name d))) acc
       else acc)
    st [].

Inductive details_response : Type :=
| DetailsNoPdf
| DetailsNoMetadata
| DetailsFailed
| Details (pdfId : text) (metadata : json) (contentPreview : option text)
    (files : list text) (hasText : bool).

(** The handler of [GET /pdf/:id], for an id that is an [entry_name].
    For [.] and [..], and for an id that [path.join] rewrites, the route
    goes on to read files that are no part of the storage tree. *)
Definition pdf_details (fs : option storage) (pdfId : text) : details_response :=
  if path_exists fs pdfId then
    match getPDFMetadata fs pdfId with
    | None => DetailsNoMetadata
    | Some metadata =>
        if truthy (Some metadata) then
          let content := getPDFContent utf8_decode fs pdfId 1000 in
          match fs with
          | Some st =>
              match find_dir pdfId st with
              | Some d =>
                  Details pdfId metadata content
                    (map fst (d_files d) ++ subdirectories pdfId st)
                    (match content with Some _ => true | None => false end)
              | None => DetailsFailed
              end
          | None => DetailsFailed
          end
        else DetailsNoMetadata
    end
  else DetailsNoPdf.

(** *** [getAIAnswer] *)

Definition modelNames : list text :=
  [ lit "gemini-1.5-flash-latest"; lit "gemini-1.5-pro-latest";
    lit "gemini-pro"; lit "gemini-1.0-pro" ].

Definition quote : N := 34%N.

(** The template [prompt]. *)
Definition ai_prompt (question pdfContent : text) (pdfName : jsval) : text :=
  lit "You are a helpful assistant that answers questions based on PDF documents."
  ++ [newline] ++ lit "        " ++ [newline]
  ++ lit "PDF Document: " ++ [quote] ++ ToString pdfName ++ [quote] ++ [newline]
  ++ lit "PDF Content (truncated if long):" ++ [newline]
  ++ pdfContent ++ [newline; newline]
  ++ lit "User Question: " ++ [quote] ++ question ++ [quote] ++ [newline; newline]
  ++ lit "Please provide a helpful answer based ONLY on the PDF content above. "
  ++ [newline]
  ++ lit "If the information is not in the PDF, say " ++ [quote]
  ++ lit "The PDF doesn't contain information about this." ++ [quote] ++ [newline]
  ++ lit "If the PDF has multiple relevant points, summarize them." ++ [newline]
  ++ lit "Include page numbers if mentioned in the content (e.g., [Page X])."
  ++ [newline]
  ++ lit "Keep your answer concise but informative.".

(** The loop over [modelNames]: [tried] lists the models called so
    far. *)
Fixpoint try_models (names : list text) (prompt : text)
    (lastError : option error) (tried : list text) : result text * list text :=
  match names with
  | [] =>
      (Throw (match lastError with
              | Some e => e
              | None => new_Error new_stack (lit "All models failed")
              end), tried)
  | modelName :: rest =>
      match generateContent modelName prompt with
      | Ok response => (Ok response, tried ++ [modelName])
      | Throw modelError =>
          try_models rest prompt (Some modelError) (tried ++ [modelName])
      end
  end.

(** [getAIAnswer], with the models it called. *)
Definition getAIAnswer (question pdfContent : text) (pdfName : jsval)
  : result text * list text :=
  match try_models modelNames (ai_prompt question pdfContent pdfName) None [] with
  | (Ok answer, tried) => (Ok answer, tried)
  | (Throw _, tried) =>
      (Throw (new_Error new_stack (lit "AI service is temporarily unavailable")),
       tried)
  end.

(** *** The route [/chat] *)

Inductive chat_source : Type := AI_Analysis | Text_Search | No_Match_Found.

Inductive chat_response : Type :=
| ChatBadRequest
| ChatNoPDFs (message : text)
| ChatNotFound (message : text) (availablePDFs : list (text * jsval))
| ChatUnreadable (message : text) (targetPdf : pdf)
| ChatAnswer (message : text) (targetPdf : pdf) (source : chat_source)
    (hasAnswer : bool) (matches : option nat).

(** An element of an array under [join]: [undefined] and [null] give
    the empty string. *)
Definition join_element (v : jsval) : text :=
  match v with
  | None => []
  | Some JNull => []
  | _ => ToString v
  end.

(** The string a template literal makes of a page number: its decimal
    digits below [10^21], the exponent notation of [ToString] from there
    on. *)
Definition number_text (n : number) : text :=
  match n with
  | Finite v =>
      if (v <? 10 ^ 21)%N then decimal v
      else ToString (Some (JNum (QArith_base.Qmake (Z.of_N v) 1)))
  | Infinity => lit "Infinity"
  end.

(** The text [, Page N] of the answer by text search; a page reference
    that is absent, [null] or [0] is falsy. *)
Definition page_suffix (p : pageRef_field) : text :=
  match p with
  | PageRef (Some (Finite v)) =>
      if N.eqb v 0 then [] else lit ", Page " ++ number_text (Finite v)
  | PageRef (Some Infinity) => lit ", Page " ++ number_text Infinity
  | _ => []
  end.

Definition text_search_message (targetPdf : pdf) (bestMatch : search_result)
  : text :=
  lit "Based on " ++ [quote] ++ ToString (name targetPdf) ++ [quote] ++ lit ":"
  ++ [newline; newline] ++ sr_context bestMatch ++ [newline; newline]
  ++ lit "(Found via text search" ++ page_suffix (sr_pageRef bestMatch) ++ lit ")".

Definition no_match_message (targetPdf : pdf) (userQuery : text) : text :=
  lit "I searched through " ++ [quote] ++ ToString (name targetPdf) ++ [quote]
  ++ lit " but couldn't find information about " ++ [quote] ++ userQuery
  ++ [quote]
  ++ lit ". Try asking a different question or check if the PDF contains that information.".

Definition unreadable_message (targetPdf : pdf) : text :=
  lit "Found PDF " ++ [quote] ++ ToString (name targetPdf) ++ [quote]
  ++ lit " but couldn't read its content properly. Please try re-uploading the PDF.".

Definition not_found_message (pdfId : text) (availablePDFs : list (text * jsval))
  : text :=
  lit "PDF with ID " ++ pdfId ++ lit " not found. Available PDFs: "
  ++ join (lit ", ") (map (fun p => join_element (snd p)) availablePDFs).

(** The handler of [GET /chat] for the query parameters [message] and
    [pdfId]: the response, and the models of the AI service it called. *)
Definition chat (fs : option storage) (userQuery pdfId : option text)
  : chat_response * list text :=
  match userQuery with
  | Some (c :: s) =>
      let query := c :: s in
      match resolve_target utf8_decode JSON_parse Date_value fs pdfId with
      | NoPDFs =>
          (ChatNoPDFs (lit "No PDFs found. Please upload a PDF file first."), [])
      | NotFound availablePDFs =>
          (ChatNotFound
             (not_found_message (match pdfId with Some i => i | None => [] end)
                availablePDFs)
             availablePDFs, [])
      | Target targetPdf =>
          match getPDFContent utf8_decode fs (id targetPdf) 4000 with
          | None => (ChatUnreadable (unreadable_message targetPdf) targetPdf, [])
          | Some pdfContent =>
              if length pdfContent <? 50
              then (ChatUnreadable (unreadable_message targetPdf) targetPdf, [])
              else
                match getAIAnswer query pdfContent (name targetPdf) with
                | (Ok aiAnswer, tried) =>
                    (ChatAnswer aiAnswer targetPdf AI_Analysis true None, tried)
                | (Throw _, tried) =>
                    match searchPDFs utf8_decode JSON_parse toLowerCase Date_value
                            fs query (Some (id targetPdf)) with
                    | bestMatch :: rest =>
                        (ChatAnswer (text_search_message targetPdf bestMatch)
                           targetPdf Text_Search true
                           (Some (length (bestMatch :: rest))), tried)
                    | [] =>
                        (ChatAnswer (no_match_message targetPdf query)
                           targetPdf No_Match_Found false None, tried)
                    end
                end
          end
      end
  | _ => (ChatBadRequest, [])
  end.

(** The handler of [GET /search]: [None] is the answer 400 to a missing
    query. *)
Definition search_route (fs : option storage) (query pdfId : option text)
  : option (list search_result * nat) :=
  match query with
  | Some (c :: s) =>
      let results :=
        searchPDFs utf8_decode JSON_parse toLowerCase Date_value fs (c :: s) pdfId in
      Some (results, length results)
  | _ => None
  end.

End Chat.

(** *** Definitions used by the further statements *)

Definition no_separator (s : text) : Prop :=
  forallb (fun c => negb (N.eqb c slash) && negb (N.eqb c backslash)) s = true.

(** The documents are ordered from the latest [savedAt] to the
    earliest. *)
Definition latest_first (Date_value : jsval -> option Z) (a b : pdf) : Prop :=
  exists ta tb,
    Date_value (savedAt a) = Some ta /\ Date_value (savedAt b) = Some tb
    /\ (tb <= ta)%Z.

(** The calls the embedding loop has to make: the chunks of at least 20
    units among the first [min (length, 10)], with their indices. *)
Definition due_calls (chunks : list text) : list (nat * text) :=
  filter (fun ic => negb (length (snd ic) <? 20))
         (combine (seq 0 (Nat.min (length chunks) 10))
                  (firstn (Nat.min (length chunks) 10) chunks)).

(** The element pushed for a call that succeeded, nothing for one that
    threw. *)
Definition embedded_of (embedContent : nat -> text -> result (list QArith_base.Q))
    (jobId : text) (ic : nat * text) : list embedded :=
  match embedContent (fst ic) (snd ic) with
  | Ok embedding =>
      [Embedded (jobId ++ lit "_" ++ decimal (N.of_nat (fst ic))) (snd ic)
         embedding (fst ic) (extractPageReference (snd ic))]
  | Throw _ => []
  end.

(** A model that answers, behind two that fail. *)
Definition third_model_answers (modelName prompt : text) : result text :=
  if text_eqb modelName (lit "gemini-pro") then Ok (lit "Returns within 30 days.")
  else Throw (Error (lit "404 model not found") (lit "GoogleGenerativeAIError")).

Definition no_model (modelName prompt : text) : result text :=
  Throw (Error (lit "404 model not found") (lit "GoogleGenerativeAIError")).

Definition sample_ToString (v : jsval) : text :=
  match v with
  | Some (JStr s) => s
  | Some JNull => lit "null"
  | None => lit "undefined"
  | Some v' => sample_stringify v'
  end.

Definition no_slash (s : text) : Prop :=
  forallb (fun c => negb (N.eqb c slash)) s = true.

(** One step of [parseInt]. *)
Definition parse_step (acc c : N) : N := (10 * acc + (c - 48))%N.

(** The metadata the handler writes for [sample_job]. *)
Definition sample_metadata : json :=
  metadata_json sample_job sample_clock (lit "17-report.pdf")
    (lit "uploads/17-report.pdf")
    (storage_path (lit "17-report.pdf_7_1700000000000"))
    15 (length (placeholder (lit "17-report.pdf"))) 1 0 false.

(** A parser that knows this metadata. *)
Definition sample_metadata_parse (t : text) : option json :=
  if text_eqb t (sample_stringify sample_metadata) then Some sample_metadata
  else None.

(** The number of a day of January 2024, in two digits. *)
Definition two_digits (day : N) : text :=
  if (day <? 10)%N then lit "0" ++ decimal day else decimal day.

Definition january (day : N) : text :=
  lit "2024-01-" ++ two_digits day ++ lit "T00:00:00.000Z".

(** The metadata and the directory of a document saved on a day of
    January 2024. *)
Definition dated_metadata (day : N) : json :=
  JObj [ (lit "fileName", JStr (lit "notes" ++ decimal day ++ lit ".pdf"));
         (lit "savedAt", JStr (january day)) ].

Definition dated_id (day : N) : text :=
  lit "notes" ++ decimal day ++ lit ".pdf_" ++ decimal day ++ lit "_1704067200000".

Definition dated_doc (day : N) : dirent :=
  Dirent (dated_id day) true
    [ (lit "metadata.json", Text (sample_stringify (dated_metadata day)));
      (lit "extracted_text.txt", Text (lit "[Page 1] Notes of the day.")) ].

(** Six documents, stored in another order than they were saved in. *)
Definition dated_storage : option storage :=
  Some (map dated_doc [3; 1; 6; 2; 5; 4]%N).

(** A parser that knows the metadata of these documents. *)
Definition dated_parse (t : text) : option json :=
  find (fun metadata => text_eqb t (sample_stringify metadata))
       (map dated_metadata [1; 2; 3; 4; 5; 6]%N).

(** The time value of a midnight of January 2024 in that format. *)
Definition january_date (v : jsval) : option Z :=
  match v with
  | Some (JStr s) =>
      let day := digits_value (firstn 2 (skipn 8 s)) in
      if text_eqb s (january day) && (1 <=? day)%N && (day <=? 31)%N
      then Some (1704067200000 + 86400000 * (Z.of_N day - 1))%Z
      else None
  | _ => None
  end.

(** A text of 5001 letters, and a document that holds it. *)
Definition long_letters : text := repeat 97%N 5001.

Definition long_storage : option storage :=
  Some [ Dirent (lit "report.pdf_7_1700000000000") true
           [(lit "metadata.json", Text (sample_stringify report_metadata));
            (lit "extracted_text.txt", Text long_letters)] ].

(** A job whose source file is missing and has a name of 300 letters. *)
Definition long_name : text := repeat 97%N 300 ++ lit ".pdf".

Definition long_name_job : job :=
  Job (lit "9") (JobData None (Some (lit "uploads/" ++ long_name)) None).

(** ** Facts about the string operations *)

Lemma text_eqb_eq (a b : text) : text_eqb a b = true <-> a = b.
Proof.
  revert b; induction a as [|x a IH]; intros [|y b]; simpl; split;
    try congruence; try reflexivity.
  - intros H. apply andb_true_iff in H as [Hx Hr].
    apply N.eqb_eq in Hx. apply IH in Hr. congruence.
  - intros H. injection H as -> ->. rewrite N.eqb_refl. simpl. now apply IH.
Qed.

Lemma text_eqb_refl (a : text) : text_eqb a a = true.
Proof. now apply text_eqb_eq. Qed.

Lemma startsWith_spec (p s : text) :
  startsWith p s = true <-> exists r, s = p ++ r.
Proof.
  revert s; induction p as [|x p IH]; intros s; simpl.
  - split; [intros _; now exists s | reflexivity].
  - destruct s as [|y s].
    + split; [discriminate | intros [r Hr]; discriminate].
    + rewrite andb_true_iff, N.eqb_eq, IH. split.
      * intros [-> [r ->]]. now exists r.
      * intros [r Hr]. injection Hr as -> ->. split; [reflexivity | now exists r].
Qed.

Lemma includes_spec (p s : text) :
  includes p s = true <-> exists a r, s = a ++ p ++ r.
Proof.
  induction s as [|c s IH]; simpl.
  - rewrite orb_false_r, startsWith_spec. split.
    + intros [r Hr]. now exists [], r.
    + intros [a [r Hr]]. destruct a; [now exists r | discriminate].
  - rewrite orb_true_iff, startsWith_spec, IH. split.
    + intros [[r Hr] | [a [r Hr]]].
      * now exists [], r.
      * exists (c :: a), r. simpl. now rewrite Hr.
    + intros [[|x a] [r Hr]].
      * left. now exists r.
      * right. injection Hr as _ Hr. now exists a, r.
Qed.

(** [indexOf] finds the first occurrence. *)
Lemma indexOf_from_spec (p s : text) (from : Z) :
  includes p s = true ->
  exists a r, s = a ++ p ++ r
    /\ indexOf_from from p s = (from + Z.of_nat (length a))%Z
    /\ forall a' r', s = a' ++ p ++ r' -> length a <= length a'.
Proof.
  revert from; induction s as [|c s IH]; intros from; simpl.
  - rewrite orb_false_r. intros H. rewrite H.
    apply startsWith_spec in H as [r Hr].
    exists [], r. repeat split; simpl; [assumption | lia | intros; lia].
  - destruct (startsWith p (c :: s)) eqn:Hsw; simpl.
    + intros _. apply startsWith_spec in Hsw as [r Hr].
      exists [], r. repeat split; simpl; [assumption | lia | intros; lia].
    + intros H. destruct (IH (from + 1)%Z H) as [a [r [Hs [Hi Hmin]]]].
      exists (c :: a), r. repeat split.
      * simpl. now rewrite Hs.
      * rewrite Hi. simpl length. lia.
      * intros [|x a'] r' Heq.
        -- exfalso. assert (startsWith p (c :: s) = true)
             by (apply startsWith_spec; now exists r'). congruence.
        -- injection Heq as _ Heq. apply Hmin in Heq. simpl. lia.
Qed.

Lemma indexOf_absent (p s : text) (from : Z) :
  includes p s = false -> indexOf_from from p s = (-1)%Z.
Proof.
  revert from; induction s as [|c s IH]; intros from; simpl.
  - rewrite orb_false_r. now intros ->.
  - intros H. apply orb_false_iff in H as [-> H]. now apply IH.
Qed.

Lemma trimStart_split (s : text) :
  exists p, s = p ++ trimStart s /\ forallb is_space p = true.
Proof.
  induction s as [|c s [p [Hs Hp]]]; simpl.
  - now exists [].
  - destruct (is_space c) eqn:Hc.
    + exists (c :: p). simpl. rewrite Hc, Hp. split; [now f_equal | reflexivity].
    + now exists [].
Qed.

Lemma trimStart_head (s : text) c r : trimStart s = c :: r -> is_space c = false.
Proof.
  induction s as [|x s IH]; simpl; [discriminate|].
  destruct (is_space x) eqn:Hx; [assumption|].
  intros H. injection H as -> _. assumption.
Qed.

Lemma trimStart_nil (s : text) :
  trimStart s = [] -> forallb is_space s = true.
Proof.
  induction s as [|x s IH]; simpl; [reflexivity|].
  destruct (is_space x); [assumption | discriminate].
Qed.

(** [trimEnd] keeps a prefix. *)
Lemma trimEnd_prefix (s : text) : exists q, s = trimEnd s ++ q.
Proof.
  unfold trimEnd. destruct (trimStart_split (rev s)) as [p [Hs _]].
  exists (rev p). rewrite <- rev_app_distr, <- Hs. now rewrite rev_involutive.
Qed.

(** The first unit of a trimmed string is no white space. *)
Lemma trim_head (s : text) c r : trim s = c :: r -> is_space c = false.
Proof.
  unfold trim. intros H.
  destruct (trimEnd_prefix (trimStart s)) as [q Hq].
  rewrite H in Hq. simpl in Hq. now apply trimStart_head in Hq.
Qed.

(** A string that holds a unit other than white space is not blank. *)
Lemma trim_not_nil (s : text) c :
  In c s -> is_space c = false -> trim s <> [].
Proof.
  intros Hin Hc Ht. unfold trim, trimEnd in Ht.
  destruct (trimStart_split s) as [p [Hs Hp]].
  assert (Hr : trimStart (rev (trimStart s)) = []).
  { destruct (trimStart (rev (trimStart s))); [reflexivity|].
    simpl in Ht. now destruct (rev t). }
  apply trimStart_nil in Hr.
  rewrite Hs in Hin. apply in_app_or in Hin as [Hin | Hin].
  - rewrite forallb_forall in Hp. rewrite (Hp _ Hin) in Hc. discriminate.
  - rewrite forallb_forall in Hr. rewrite (Hr c) in Hc; [discriminate|].
    now apply in_rev in Hin.
Qed.

Lemma trim_fixed (s : text) c r c' :
  s = c :: r -> is_space c = false -> last s c = c' -> is_space c' = false ->
  trim s = s.
Proof.
  intros -> Hc Hl Hc'. unfold trim. simpl. rewrite Hc. unfold trimEnd.
  destruct (rev (c :: r)) as [|x l] eqn:Hrev.
  - apply (f_equal (@rev N)) in Hrev. rewrite rev_involutive in Hrev. discriminate.
  - assert (x = c').
    { apply (f_equal (@rev N)) in Hrev. rewrite rev_involutive in Hrev.
      rewrite Hrev in Hl. simpl in Hl. now rewrite last_last in Hl. }
    subst x. simpl. rewrite Hc'. rewrite <- Hrev. apply rev_involutive.
Qed.

(** ** The chunker *)

Lemma step_pos : 0 < chunkSize - overlap.
Proof. apply Nat.ltb_lt. vm_compute. reflexivity. Qed.

Lemma below_ceil_div (k L b : nat) :
  0 < b -> (k * b < L <-> k < ceil_div L b).
Proof.
  intros Hb. unfold ceil_div. split; intros H.
  - apply Nat.div_le_lower_bound; [lia|]. nia.
  - apply Nat.nle_gt. intros Hle.
    assert ((L + b - 1) / b < S k); [|lia].
    apply Nat.Div0.div_lt_upper_bound. nia.
Qed.

Lemma firstn_short (A : Type) (l : list A) (n : nat) :
  length l <= n -> firstn n l = l.
Proof. intros H. now apply firstn_all2. Qed.

Lemma chunk_loop_spec (t : text) :
  forall n fuel k acc,
    k + n = ceil_div (length t) (chunkSize - overlap) ->
    n < fuel ->
    length acc < 50 ->
    chunk_loop fuel t (k * (chunkSize - overlap)) acc
    = Some (firstn 50 (acc ++ filter nonblank (windows_from t k n))).
Proof.
  pose proof step_pos as Hstep.
  induction n as [|n IH]; intros fuel k acc Hk Hfuel Hacc;
    (destruct fuel as [|fuel]; [lia|]); cbn [chunk_loop].
  - assert (Hge : (k * (chunkSize - overlap) <? length t) = false).
    { apply Nat.ltb_ge. apply Nat.nlt_ge. intros Hlt.
      apply (below_ceil_div k (length t) _ Hstep) in Hlt. lia. }
    rewrite Hge. unfold windows_from. cbn [seq map filter].
    rewrite app_nil_r, firstn_short by lia. reflexivity.
  - assert (Hlt : (k * (chunkSize - overlap) <? length t) = true).
    { apply Nat.ltb_lt. apply (below_ceil_div k (length t) _ Hstep). lia. }
    rewrite Hlt. unfold windows_from. cbn [seq map filter].
    fold (windows_from t (S k) n).
    change (nonblank (window t k)) with
      (0 <? length (trim (substring (k * (chunkSize - overlap))
                            (k * (chunkSize - overlap) + chunkSize) t))).
    set (chunk := substring _ _ t).
    assert (Hnext : k * (chunkSize - overlap) + (chunkSize - overlap)
                    = S k * (chunkSize - overlap)) by (cbn [Nat.mul]; lia).
    rewrite Hnext.
    destruct (0 <? length (trim chunk)).
    + destruct (50 <=? length (acc ++ [(k * (chunkSize - overlap), chunk)])) eqn:Hfull.
      * apply Nat.leb_le in Hfull. rewrite length_app in Hfull. cbn [length] in Hfull.
        f_equal. unfold window. fold chunk.
        change (acc ++ (k * (chunkSize - overlap), chunk) :: filter nonblank (windows_from t (S k) n))
          with (acc ++ [(k * (chunkSize - overlap), chunk)] ++ filter nonblank (windows_from t (S k) n)).
        rewrite app_assoc, firstn_app.
        rewrite firstn_short by (rewrite length_app; cbn [length]; lia).
        replace (50 - length (acc ++ [(k * (chunkSize - overlap), chunk)])) with 0
          by (rewrite length_app; cbn [length]; lia).
        cbn [firstn]. now rewrite app_nil_r.
      * apply Nat.leb_gt in Hfull.
        rewrite IH by (try assumption; lia).
        unfold window. fold chunk. now rewrite <- app_assoc.
    + assert (Hnot : (50 <=? length acc) = false) by (apply Nat.leb_gt; lia).
      rewrite Hnot. apply IH; lia.
Qed.

Lemma ceil_div_le (L b : nat) : 0 < b -> ceil_div L b <= L.
Proof.
  intros Hb. destruct (Nat.eq_dec L 0) as [->|HL].
  - unfold ceil_div. cbn [Nat.add]. rewrite Nat.div_small; lia.
  - apply Nat.nlt_ge. intros H. apply (below_ceil_div L L b Hb) in H. nia.
Qed.

(** The chunker on a long text: it ends, and returns the first 50 windows
    that are not blank. *)
Lemma chunks_with_offsets_long (t : text) :
  chunkSize < length t ->
  chunks_with_offsets t = Some (firstn 50 (filter nonblank (windows t))).
Proof.
  intros HL. unfold chunks_with_offsets.
  apply Nat.ltb_lt in HL. rewrite HL.
  change 0 with (0 * (chunkSize - overlap)) at 1.
  rewrite (chunk_loop_spec t (ceil_div (length t) (chunkSize - overlap))).
  - reflexivity.
  - reflexivity.
  - pose proof (ceil_div_le (length t) _ step_pos). lia.
  - cbn [length]. lia.
Qed.

Lemma windows_from_sorted (t : text) (n k : nat) :
  StronglySorted by_offset (windows_from t k n).
Proof.
  revert k; induction n as [|n IH]; intros k; unfold windows_from; cbn [seq map].
  - constructor.
  - constructor; [apply IH|].
    apply Forall_forall. intros w Hw. apply in_map_iff in Hw as [j [<- Hj]].
    apply in_seq in Hj. unfold by_offset, window. cbn [fst].
    pose proof step_pos. nia.
Qed.

Lemma sorted_filter (A : Type) (R : A -> A -> Prop) (f : A -> bool) (l : list A) :
  StronglySorted R l -> StronglySorted R (filter f l).
Proof.
  induction 1 as [|a l Hs IH Hall]; cbn [filter]; [constructor|].
  destruct (f a); [|assumption].
  constructor; [assumption|].
  apply Forall_forall. intros x Hx. apply filter_In in Hx as [Hx _].
  rewrite Forall_forall in Hall. now apply Hall.
Qed.

Lemma in_firstn (A : Type) (n : nat) (l : list A) (x : A) :
  In x (firstn n l) -> In x l.
Proof.
  revert l; induction n as [|n IH]; intros [|y l]; simpl; try tauto.
  intros [->|H]; [now left | right; now apply IH].
Qed.

Lemma sorted_firstn (A : Type) (R : A -> A -> Prop) (n : nat) (l : list A) :
  StronglySorted R l -> StronglySorted R (firstn n l).
Proof.
  intros H; revert n; induction H as [|a l Hs IH Hall]; intros [|n];
    cbn [firstn]; try constructor.
  - apply IH.
  - apply Forall_forall. intros x Hx. rewrite Forall_forall in Hall.
    apply Hall. now apply in_firstn in Hx.
Qed.

Lemma sorted_map_fst (l : list (nat * text)) :
  StronglySorted by_offset l -> StronglySorted lt (map fst l).
Proof.
  induction 1 as [|a l Hs IH Hall]; cbn [map]; constructor; [assumption|].
  apply Forall_forall. intros x Hx. apply in_map_iff in Hx as [w [<- Hw]].
  rewrite Forall_forall in Hall. now apply Hall.
Qed.

Lemma filter_all (A : Type) (f : A -> bool) (l : list A) :
  forallb f l = true -> filter f l = l.
Proof.
  induction l as [|a l IH]; cbn [forallb filter]; [reflexivity|].
  intros H. apply andb_true_iff in H as [-> H]. now rewrite IH.
Qed.

Lemma length_windows (t : text) :
  length (windows t) = ceil_div (length t) (chunkSize - overlap).
Proof. unfold windows, windows_from. now rewrite length_map, length_seq. Qed.

(** The chunker on a short text: the [else] branch. *)
Lemma chunks_with_offsets_short (t : text) :
  length t <= chunkSize -> chunks_with_offsets t = Some [(0, t)].
Proof.
  intros HL. unfold chunks_with_offsets.
  assert (Hle : (chunkSize <? length t) = false) by (apply Nat.ltb_ge; lia).
  now rewrite Hle.
Qed.

(** The loop never runs out of fuel. *)
Lemma chunker_terminates (t : text) : chunks_with_offsets t <> None.
Proof.
  destruct (Nat.le_gt_cases (length t) chunkSize) as [Hle | Hgt].
  - rewrite (chunks_with_offsets_short t Hle). discriminate.
  - rewrite (chunks_with_offsets_long t Hgt). discriminate.
Qed.

(** C1, as amended: on a text of length [L] above the window size (1000)
    the chunker ends; it cuts one window at each offset 0, 800, 1600, ...
    below [L], that is [ceil (L / (windowSize - overlap))] windows, and
    returns the first 50 of those that are not blank after trimming.  So it
    gives at most [min (ceil (L / (windowSize - overlap)), 50)] chunks,
    exactly that many when no window is blank, and the start offsets of
    successive chunks strictly increase. *)
Theorem chunker_long_text (t : text) :
  chunkSize < length t ->
  exists l,
    chunks_with_offsets t = Some l
    /\ l = firstn 50 (filter nonblank (windows t))
    /\ length l <= Nat.min (ceil_div (length t) (chunkSize - overlap)) 50
    /\ (forallb nonblank (windows t) = true ->
        length l = Nat.min (ceil_div (length t) (chunkSize - overlap)) 50)
    /\ StronglySorted lt (map fst l).
Proof.
  intros HL. exists (firstn 50 (filter nonblank (windows t))).
  split; [now apply chunks_with_offsets_long|].
  split; [reflexivity|].
  split; [|split].
  - rewrite length_firstn, <- length_windows.
    pose proof (filter_length_le nonblank (windows t)). lia.
  - intros Hall. rewrite (filter_all _ _ _ Hall), length_firstn, length_windows. lia.
  - apply sorted_map_fst, sorted_firstn, sorted_filter, windows_from_sorted.
Qed.

Lemma chunker_long_text_witness :
  chunkSize < length long_text
  /\ exists l,
       chunks_with_offsets long_text = Some l
       /\ l = firstn 50 (filter nonblank (windows long_text))
       /\ length l <= Nat.min (ceil_div (length long_text) (chunkSize - overlap)) 50
       /\ (forallb nonblank (windows long_text) = true ->
           length l = Nat.min (ceil_div (length long_text) (chunkSize - overlap)) 50)
       /\ StronglySorted lt (map fst l).
Proof.
  split.
  - apply Nat.ltb_lt. vm_compute. reflexivity.
  - apply (chunker_long_text long_text). apply Nat.ltb_lt. vm_compute. reflexivity.
Defined.

(** C1, as stated, fails: a text of 1601 letters is longer than the
    window, the formula [min (ceil ((L - overlap) / (windowSize - overlap)), 50)]
    gives 2, and the chunker cuts three chunks, at 0, 800 and 1600. *)
Lemma chunk_count_formula_fails :
  chunkSize < length long_text
  /\ Nat.min (ceil_div (length long_text - overlap) (chunkSize - overlap)) 50 = 2
  /\ chunk_offsets long_text = [0; 800; 1600]
  /\ length (split_chunks long_text)
     <> Nat.min (ceil_div (length long_text - overlap) (chunkSize - overlap)) 50.
Proof.
  split; [apply Nat.ltb_lt; vm_compute; reflexivity|].
  split; [vm_compute; reflexivity|].
  split; [vm_compute; reflexivity|].
  vm_compute. discriminate.
Qed.

(** C2, as amended: a text no longer than the window (1000) gives exactly
    one chunk, the text itself, cut at offset 0; nothing is trimmed, so
    the chunk is the trimmed text exactly when trimming leaves the text as
    it is. *)
Theorem chunker_short_text (t : text) :
  length t <= chunkSize ->
  chunks_with_offsets t = Some [(0, t)]
  /\ split_chunks t = [t]
  /\ (split_chunks t = [trim t] <-> trim t = t).
Proof.
  intros HL.
  pose proof (chunks_with_offsets_short t HL) as H.
  assert (H' : split_chunks t = [t]) by (unfold split_chunks; now rewrite H).
  repeat split; try assumption.
  - rewrite H'. congruence.
  - rewrite H'. congruence.
Qed.

Lemma chunker_short_text_witness :
  length (lit "Hello [Page 1]") <= chunkSize
  /\ chunks_with_offsets (lit "Hello [Page 1]") = Some [(0, lit "Hello [Page 1]")]
  /\ split_chunks (lit "Hello [Page 1]") = [lit "Hello [Page 1]"]
  /\ (split_chunks (lit "Hello [Page 1]") = [trim (lit "Hello [Page 1]")]
      <-> trim (lit "Hello [Page 1]") = lit "Hello [Page 1]").
Proof.
  split.
  - apply Nat.leb_le. vm_compute. reflexivity.
  - apply (chunker_short_text (lit "Hello [Page 1]")).
    apply Nat.leb_le. vm_compute. reflexivity.
Defined.

(** C2, as stated, fails: when the PDF library rejects a buffer made of
    one line that ends in a space, the fallback text ends in that space; it
    is shorter than the window, and the one chunk is this text, not its
    trimmed form. *)
Lemma short_chunk_not_trimmed :
  let t := fallback_marker ++ repeat 120%N 101 ++ [32%N] in
  extractPDFText ascii_decode broken_pdf sample_stack one_line_buffer = Ok t
  /\ length t <= chunkSize
  /\ split_chunks t = [t]
  /\ split_chunks t <> [trim t].
Proof.
  cbv zeta.
  split; [vm_compute; reflexivity|].
  split; [apply Nat.leb_le; vm_compute; reflexivity|].
  split; [vm_compute; reflexivity|].
  vm_compute. intros H. injection H as H.
  apply (f_equal (@length N)) in H. vm_compute in H. discriminate.
Qed.

Lemma substring_head (n : nat) (c : N) (r : text) :
  substring 0 (S n) (c :: r) = c :: firstn n r.
Proof.
  unfold substring. rewrite Nat.min_0_l, Nat.max_0_l, Nat.sub_0_r. reflexivity.
Qed.

Lemma chunkSize_succ : exists m, chunkSize = S m.
Proof. exists 999. reflexivity. Qed.

(** A text whose first unit is no white space is cut into at least one
    chunk. *)
Lemma split_chunks_nonempty (c : N) (r : text) :
  is_space c = false -> split_chunks (c :: r) <> [].
Proof.
  intros Hc. destruct (Nat.le_gt_cases (length (c :: r)) chunkSize) as [Hle | Hgt].
  - unfold split_chunks. rewrite (chunks_with_offsets_short (c :: r) Hle).
    discriminate.
  - unfold split_chunks. rewrite (chunks_with_offsets_long (c :: r) Hgt).
    unfold windows.
    destruct (ceil_div (length (c :: r)) (chunkSize - overlap)) as [|n] eqn:Hn.
    + exfalso.
      assert (0 < ceil_div (length (c :: r)) (chunkSize - overlap)); [|lia].
      apply (below_ceil_div 0 (length (c :: r)) _ step_pos). cbn [length Nat.mul]. lia.
    + unfold windows_from. cbn [seq map filter].
      assert (Hw : nonblank (window (c :: r) 0) = true).
      { unfold nonblank, window. cbn [snd Nat.mul Nat.add].
        destruct chunkSize_succ as [m ->]. rewrite substring_head.
        apply Nat.ltb_lt.
        destruct (trim (c :: firstn m r)) eqn:Ht; [|cbn [length]; lia].
        exfalso. revert Ht. apply (trim_not_nil _ c); [now left | assumption]. }
      rewrite Hw. cbn [firstn map]. discriminate.
Qed.

(** The text the handler chunks starts with a unit that is no white
    space, whichever way it was obtained. *)
Lemma extracted_text_head utf8_decode getDocument new_stack fileBuffer fileName :
  exists c r,
    fst (extract_or_placeholder utf8_decode getDocument new_stack fileBuffer fileName)
    = c :: r /\ is_space c = false.
Proof.
  unfold extract_or_placeholder, extractPDFText, library_extraction.
  destruct (getDocument fileBuffer) as [pages | e].
  - destruct (trim (extract_pages 1 pages [])) as [|c r] eqn:Ht.
    + cbn [length Nat.eqb].
      destruct (100 <? length (fallback_lines utf8_decode fileBuffer)); cbn [fst].
      * eexists _, _. split; [reflexivity|]. vm_compute. reflexivity.
      * eexists _, _. split; [reflexivity|]. vm_compute. reflexivity.
    + cbn [length Nat.eqb fst]. exists c, r. split; [reflexivity|].
      now apply trim_head in Ht.
  - destruct (100 <? length (fallback_lines utf8_decode fileBuffer)); cbn [fst].
    + eexists _, _. split; [reflexivity|]. vm_compute. reflexivity.
    + eexists _, _. split; [reflexivity|]. vm_compute. reflexivity.
Qed.

(** C9: the chunk list of a job is not empty when its extracted text is
    not empty, be it the text of the PDF library, the fallback text or the
    placeholder; and this is the list whose length the handler reports. *)
Theorem chunks_nonempty utf8_decode getDocument embedContent JSON_stringify
    new_stack j clk filePath fileName fileBuffer st :
  let extractedText :=
    fst (extract_or_placeholder utf8_decode getDocument new_stack fileBuffer fileName) in
  extractedText <> [] ->
  split_chunks extractedText <> []
  /\ r_chunks (fst (process_buffer utf8_decode getDocument embedContent
                      JSON_stringify new_stack j clk filePath fileName fileBuffer st))
     = length (split_chunks extractedText).
Proof.
  intros extractedText _. subst extractedText. split.
  - destruct (extracted_text_head utf8_decode getDocument new_stack fileBuffer fileName)
      as [c [r [-> Hc]]].
    now apply split_chunks_nonempty.
  - unfold process_buffer.
    destruct (extract_or_placeholder utf8_decode getDocument new_stack fileBuffer fileName).
    reflexivity.
Qed.

Lemma chunks_nonempty_witness :
  fst (extract_or_placeholder ascii_decode broken_pdf sample_stack
         one_line_buffer (lit "17-report.pdf")) <> []
  /\ split_chunks
       (fst (extract_or_placeholder ascii_decode broken_pdf sample_stack
               one_line_buffer (lit "17-report.pdf"))) <> [].
Proof.
  assert (H : fst (extract_or_placeholder ascii_decode broken_pdf sample_stack
                     one_line_buffer (lit "17-report.pdf")) <> [])
    by (vm_compute; discriminate).
  split; [exact H|].
  exact (proj1 (chunks_nonempty ascii_decode broken_pdf no_quota sample_stringify
                  sample_stack sample_job sample_clock
                  (lit "uploads/17-report.pdf") (lit "17-report.pdf")
                  one_line_buffer [] H)).
Defined.

(** ** The storage tree *)

Lemma is_dir_named_spec (n : text) (d : dirent) :
  is_dir_named n d = true <-> d_name d = n /\ d_isDirectory d = true.
Proof. unfold is_dir_named. now rewrite andb_true_iff, text_eqb_eq. Qed.

Lemma text_eqb_neq (a b : text) : text_eqb a b = false <-> a <> b.
Proof.
  split.
  - intros H Heq. apply text_eqb_eq in Heq. congruence.
  - intros H. destruct (text_eqb a b) eqn:E; [|reflexivity].
    apply text_eqb_eq in E. contradiction.
Qed.

Lemma lookup_set_file (f f' : text) (c : content) (files : list (text * content)) :
  lookup_file f' (set_file f c files)
  = if text_eqb f' f then Some c else lookup_file f' files.
Proof.
  induction files as [|[n c0] files IH]; cbn [set_file lookup_file].
  - destruct (text_eqb f' f) eqn:E.
    + apply text_eqb_eq in E. subst. now rewrite text_eqb_refl.
    + destruct (text_eqb f f') eqn:E'; [|reflexivity].
      apply text_eqb_eq in E'. subst. now rewrite text_eqb_refl in E.
  - destruct (text_eqb n f) eqn:Enf; cbn [lookup_file].
    + apply text_eqb_eq in Enf. subst n.
      destruct (text_eqb f f') eqn:E.
      * apply text_eqb_eq in E. subst. now rewrite text_eqb_refl.
      * destruct (text_eqb f' f) eqn:E'; [|reflexivity].
        apply text_eqb_eq in E'. subst. now rewrite text_eqb_refl in E.
    + destruct (text_eqb n f') eqn:Enf'.
      * apply text_eqb_eq in Enf'. subst n. now rewrite Enf.
      * apply IH.
Qed.

Lemma find_dir_app (n : text) (st st' : storage) :
  find_dir n (st ++ st')
  = match find_dir n st with
    | Some d => Some d
    | None => find_dir n st'
    end.
Proof.
  induction st as [|d st IH]; cbn [app find_dir]; [reflexivity|].
  now destruct (is_dir_named n d).
Qed.

Lemma find_dir_none (n : text) (st : storage) :
  existsb (is_dir_named n) st = false <-> find_dir n st = None.
Proof.
  induction st as [|d st IH]; cbn [existsb find_dir]; [tauto|].
  destruct (is_dir_named n d); cbn [orb]; [split; discriminate | assumption].
Qed.

(** [mkdir] makes the directory exist and changes no file. *)
Lemma find_dir_mkdir (n : text) (st : storage) :
  find_dir n (mkdir n st) <> None.
Proof.
  unfold mkdir. destruct (existsb (is_dir_named n) st) eqn:E.
  - intros H. apply find_dir_none in H. congruence.
  - rewrite find_dir_app. apply find_dir_none in E. rewrite E.
    cbn [find_dir]. unfold is_dir_named. cbn [d_name d_isDirectory].
    rewrite text_eqb_refl. discriminate.
Qed.

Lemma stored_file_mkdir (n : text) (st : storage) (dir file : text) :
  stored_file (mkdir n st) dir file = stored_file st dir file.
Proof.
  unfold stored_file, mkdir. destruct (existsb (is_dir_named n) st) eqn:E;
    [reflexivity|].
  rewrite find_dir_app. destruct (find_dir dir st); [reflexivity|].
  cbn [find_dir]. destruct (is_dir_named dir (Dirent n true [])); reflexivity.
Qed.

Lemma find_dir_writeFile_same (dir f : text) (c : content) (st : storage) :
  find_dir dir (writeFile dir f c st)
  = option_map (fun d => Dirent (d_name d) true (set_file f c (d_files d)))
               (find_dir dir st).
Proof.
  induction st as [|d st IH]; cbn [writeFile find_dir option_map]; [reflexivity|].
  destruct (is_dir_named dir d) eqn:E; cbn [find_dir].
  - apply is_dir_named_spec in E as [E _]. subst dir.
    unfold is_dir_named. cbn [d_name d_isDirectory option_map].
    rewrite text_eqb_refl. reflexivity.
  - rewrite E. apply IH.
Qed.

Lemma find_dir_writeFile_other (dir dir' f : text) (c : content) (st : storage) :
  dir' <> dir -> find_dir dir' (writeFile dir f c st) = find_dir dir' st.
Proof.
  intros Hneq. induction st as [|d st IH]; cbn [writeFile find_dir]; [reflexivity|].
  destruct (is_dir_named dir d) eqn:E; cbn [find_dir].
  - apply is_dir_named_spec in E as [E _].
    assert (H1 : is_dir_named dir' d = false).
    { unfold is_dir_named. rewrite E.
      assert (text_eqb dir dir' = false) by (apply text_eqb_neq; congruence).
      now rewrite H. }
    assert (H2 : is_dir_named dir'
                   (Dirent (d_name d) true (set_file f c (d_files d))) = false).
    { unfold is_dir_named. cbn [d_name d_isDirectory]. rewrite E.
      assert (text_eqb dir dir' = false) by (apply text_eqb_neq; congruence).
      now rewrite H. }
    now rewrite H1, H2.
  - destruct (is_dir_named dir' d); [reflexivity | apply IH].
Qed.

(** What a file holds after [writeFile]. *)
Lemma stored_file_writeFile (dir f : text) (c : content) (st : storage)
    (dir' f' : text) :
  stored_file (writeFile dir f c st) dir' f'
  = if text_eqb dir' dir && text_eqb f' f
    then match find_dir dir st with Some _ => Some c | None => None end
    else stored_file st dir' f'.
Proof.
  unfold stored_file. destruct (text_eqb dir' dir) eqn:Ed.
  - apply text_eqb_eq in Ed. subst dir'. rewrite find_dir_writeFile_same.
    destruct (find_dir dir st) as [d|]; cbn [option_map andb d_files].
    + rewrite lookup_set_file. now destruct (text_eqb f' f).
    + now destruct (text_eqb f' f).
  - apply text_eqb_neq in Ed. rewrite (find_dir_writeFile_other _ _ _ _ _ Ed).
    reflexivity.
Qed.

Lemma find_dir_writeFile_some (dir dir' f : text) (c : content) (st : storage) :
  find_dir dir' st <> None -> find_dir dir' (writeFile dir f c st) <> None.
Proof.
  intros H. destruct (text_eqb dir' dir) eqn:Ed.
  - apply text_eqb_eq in Ed. subst dir'. rewrite find_dir_writeFile_same.
    destruct (find_dir dir st); [discriminate | contradiction].
  - apply text_eqb_neq in Ed. now rewrite find_dir_writeFile_other.
Qed.

(** Writing into a directory that exists stores the file. *)
Lemma stored_file_written (dir f : text) (c : content) (st : storage) :
  find_dir dir st <> None -> stored_file (writeFile dir f c st) dir f = Some c.
Proof.
  intros H. rewrite stored_file_writeFile, !text_eqb_refl. cbn [andb].
  destruct (find_dir dir st); [reflexivity | contradiction].
Qed.

(** Writing another file of the directory keeps the file. *)
Lemma stored_file_kept (dir f f' : text) (c : content) (st : storage) :
  text_eqb f' f = false ->
  stored_file (writeFile dir f c st) dir f' = stored_file st dir f'.
Proof.
  intros H. rewrite stored_file_writeFile, H. now rewrite andb_false_r.
Qed.

(** ** The job handler *)

Ltac dir_exists :=
  repeat (apply find_dir_writeFile_some); apply find_dir_mkdir.

Ltac file_kept :=
  repeat (rewrite stored_file_kept by (vm_compute; reflexivity)).

(** The document record a job leaves when its source file was read. *)
Lemma process_buffer_record utf8_decode getDocument embedContent JSON_stringify
    new_stack j clk filePath fileName fileBuffer st :
  let dir := document_dir_name j clk fileName in
  let extracted :=
    extract_or_placeholder utf8_decode getDocument new_stack fileBuffer fileName in
  let chunks := split_chunks (fst extracted) in
  let embedded := fst (generate_embeddings embedContent (job_id j) chunks) in
  let done := process_buffer utf8_decode getDocument embedContent JSON_stringify
                new_stack j clk filePath fileName fileBuffer st in
  fst done = JobResult true fileName (basename (storage_path dir))
               (length (fst extracted)) (length chunks) (length embedded)
               (storage_path dir) (snd extracted)
  /\ stored_file (snd done) dir (lit "original.pdf") = Some (Bytes fileBuffer)
  /\ stored_file (snd done) dir (lit "extracted_text.txt")
     = Some (Text (fst extracted))
  /\ stored_file (snd done) dir (lit "chunks.json")
     = Some (Text (JSON_stringify (JArr (map JStr chunks))))
  /\ stored_file (snd done) dir (lit "metadata.json")
     = Some (Text (JSON_stringify
                     (metadata_json j clk fileName filePath (storage_path dir)
                        (length fileBuffer) (length (fst extracted))
                        (length chunks) (length embedded) (snd extracted)))).
Proof.
  intros dir extracted chunks embedded done.
  subst done. unfold process_buffer. fold extracted.
  destruct extracted as [extractedText extractionSuccess] eqn:Hex.
  cbn [fst snd] in *. fold chunks. fold embedded. fold dir.
  split; [reflexivity|].
  destruct (0 <? length embedded);
    (split; [|split; [|split]]);
    file_kept; rewrite stored_file_written; try reflexivity; dir_exists.
Qed.

(** The calls the embedding loop makes: only to indices it runs over, with
    the chunk at that index, which has at least 20 units. *)
Lemma embed_loop_calls embedContent jobId chunks :
  forall todo i acc calls k c,
    In (k, c) (snd (embed_loop embedContent jobId chunks todo i acc calls)) ->
    In (k, c) calls
    \/ (i <= k < i + todo /\ nth_error chunks k = Some c /\ 20 <= length c).
Proof.
  induction todo as [|todo IH]; intros i acc calls k c; cbn [embed_loop].
  - cbn [snd]. now left.
  - destruct (nth_error chunks i) as [chunk|] eqn:Hnth.
    + destruct (length chunk <? 20) eqn:Hlen.
      * intros H. apply IH in H as [H | [H1 H2]]; [now left | right].
        split; [lia | assumption].
      * apply Nat.ltb_ge in Hlen.
        assert (Hstep : forall acc',
          In (k, c) (snd (embed_loop embedContent jobId chunks todo (S i) acc'
                            (calls ++ [(i, chunk)]))) ->
          In (k, c) calls
          \/ (i <= k < i + S todo /\ nth_error chunks k = Some c /\ 20 <= length c)).
        { intros acc' H. apply IH in H as [H | [H1 H2]].
          - apply in_app_or in H as [H | [H | []]]; [now left | right].
            injection H as <- <-. repeat split; try assumption; lia.
          - right. split; [lia | assumption]. }
        destruct (embedContent i chunk); apply Hstep.
    + intros H. apply IH in H as [H | [H1 H2]]; [now left | right].
      split; [lia | assumption].
Qed.

Lemma embed_loop_calls_grow embedContent jobId chunks :
  forall todo i acc calls x,
    In x calls ->
    In x (snd (embed_loop embedContent jobId chunks todo i acc calls)).
Proof.
  induction todo as [|todo IH]; intros i acc calls x Hx; cbn [embed_loop].
  - assumption.
  - destruct (nth_error chunks i) as [chunk|]; [|now apply IH].
    destruct (length chunk <? 20); [now apply IH|].
    destruct (embedContent i chunk); apply IH; apply in_or_app; now left.
Qed.

(** When every call made fails, the loop adds nothing. *)
Lemma embed_loop_all_fail embedContent jobId chunks :
  forall todo i acc calls,
    (forall k c,
        In (k, c) (snd (embed_loop embedContent jobId chunks todo i acc calls)) ->
        exists e, embedContent k c = Throw e) ->
    fst (embed_loop embedContent jobId chunks todo i acc calls) = acc.
Proof.
  induction todo as [|todo IH]; intros i acc calls; cbn [embed_loop].
  - reflexivity.
  - destruct (nth_error chunks i) as [chunk|]; [|apply IH].
    destruct (length chunk <? 20); [apply IH|].
    destruct (embedContent i chunk) as [v|e] eqn:Hcall; [|apply IH].
    intros Hfail. exfalso.
    destruct (Hfail i chunk) as [e He]; [|congruence].
    apply embed_loop_calls_grow. apply in_or_app. right. now left.
Qed.



(** ** The fallback extraction *)

Lemma keep_line_spec (line : text) : keep_line line = true <-> ~ discarded line.
Proof.
  unfold keep_line, discarded, occurs.
  rewrite !andb_true_iff, !negb_true_iff, Nat.ltb_lt.
  rewrite <- !not_true_iff_false, !includes_spec.
  split.
  - intros [[Hlen H1] H2] [Ht | [H | H]]; try tauto.
    rewrite Ht in Hlen. cbn [length] in Hlen. lia.
  - intros H. repeat split.
    + destruct (trim line); [tauto | cbn [length]; lia].
    + tauto.
    + tauto.
Qed.

(** Joining the pieces of [split] with the separator gives the string
    back. *)
Lemma join_split_go (sep : N) (s cur : text) :
  join [sep] (split_go sep cur s) = rev cur ++ s.
Proof.
  revert cur; induction s as [|c s IH]; intros cur; cbn [split_go].
  - cbn [join]. now rewrite app_nil_r.
  - destruct (N.eqb c sep) eqn:E.
    + apply N.eqb_eq in E. subst c.
      specialize (IH []). cbn [rev app] in IH.
      destruct (split_go sep [] s) as [|x l] eqn:Hs.
      * destruct s; cbn [split_go] in Hs; [discriminate|].
        destruct (N.eqb n sep); discriminate.
      * cbn [join]. cbn [join] in IH. rewrite IH. reflexivity.
    + rewrite IH. cbn [rev]. now rewrite <- app_assoc.
Qed.

Lemma join_split (sep : N) (s : text) : join [sep] (split sep s) = s.
Proof. unfold split. now rewrite join_split_go. Qed.

(** C5: when the extraction by the PDF library throws, the fallback
    decodes the first [min (10000, length)] bytes, keeps the lines that are
    not discarded (the first 50 of them), joins them by newlines, and
    returns the joined text after the marker line
    [[PDF Extraction Failed - Using Fallback]] exactly when it is longer
    than 100 units; otherwise [extractPDFText] throws and the handler
    takes the placeholder text. *)
Theorem fallback_policy utf8_decode getDocument new_stack fileBuffer e :
  library_extraction getDocument new_stack fileBuffer = Throw e ->
  let decoded :=
    utf8_decode (firstn (Nat.min 10000 (length fileBuffer)) fileBuffer) in
  let kept := firstn 50 (filter keep_line (split newline decoded)) in
  let joined := join [newline] kept in
  (forall line, keep_line line = true <-> ~ discarded line)
  /\ join [newline] (split newline decoded) = decoded
  /\ length kept <= 50
  /\ (100 < length joined ->
      extractPDFText utf8_decode getDocument new_stack fileBuffer
      = Ok (lit "[PDF Extraction Failed - Using Fallback]" ++ [newline] ++ joined))
  /\ (length joined <= 100 ->
      extractPDFText utf8_decode getDocument new_stack fileBuffer
      = Throw (new_Error new_stack
                 (lit "PDF text extraction failed: " ++ message e))
      /\ forall fileName,
           extract_or_placeholder utf8_decode getDocument new_stack
             fileBuffer fileName = (placeholder fileName, false)).
Proof.
  intros Hlib decoded kept joined.
  split; [exact keep_line_spec|].
  split; [apply join_split|].
  split; [subst kept; rewrite length_firstn; lia|].
  assert (Hlines : fallback_lines utf8_decode fileBuffer = joined) by reflexivity.
  split.
  - intros Hlong. unfold extractPDFText. rewrite Hlib, Hlines.
    apply Nat.ltb_lt in Hlong. rewrite Hlong.
    unfold fallback_marker. now rewrite <- app_assoc.
  - intros Hshort.
    assert (Hthrow : extractPDFText utf8_decode getDocument new_stack fileBuffer
                     = Throw (new_Error new_stack
                                (lit "PDF text extraction failed: " ++ message e))).
    { unfold extractPDFText. rewrite Hlib, Hlines.
      assert (Hle : (100 <? length joined) = false) by (apply Nat.ltb_ge; lia).
      now rewrite Hle. }
    split; [assumption|].
    intros fileName. unfold extract_or_placeholder. now rewrite Hthrow.
Qed.

Lemma fallback_policy_witness :
  library_extraction broken_pdf sample_stack one_line_buffer
  = Throw (Error (lit "Invalid PDF structure.") (lit "InvalidPDFException"))
  /\ extractPDFText ascii_decode broken_pdf sample_stack one_line_buffer
     = Ok (lit "[PDF Extraction Failed - Using Fallback]" ++ [newline]
           ++ repeat 120%N 101 ++ [32%N]).
Proof.
  split; [reflexivity|].
  destruct (fallback_policy ascii_decode broken_pdf sample_stack one_line_buffer
              (Error (lit "Invalid PDF structure.") (lit "InvalidPDFException"))
              eq_refl) as [_ [_ [_ [Hlong _]]]].
  rewrite Hlong.
  - vm_compute. reflexivity.
  - apply Nat.ltb_lt. vm_compute. reflexivity.
Defined.

(** ** Failure and degraded extraction *)

Lemma length_error_dir_name (clk : clock) (fileName : text) :
  length (error_dir_name clk fileName)
  = 7 + length fileName + length (decimal (Date_now clk)).
Proof.
  unfold error_dir_name, sanitize.
  rewrite !length_app, length_map. cbn [lit length map list_ascii_of_string].
  lia.
Qed.

(** What the [catch] block leaves: the storage with the error record, or
    the storage as it was when the name of the record is too long. *)
Lemma save_error_record_cases JSON_stringify (j : job) (clk : clock)
    (fileName : text) (e : error) (st : storage) :
  let errorDir := error_dir_name clk fileName in
  (length errorDir <= NAME_MAX
   /\ save_error_record JSON_stringify j clk fileName e st
      = writeFile errorDir (lit "error.json")
          (Text (JSON_stringify (errorMeta_json j clk fileName e)))
          (mkdir errorDir st))
  \/ (NAME_MAX < length errorDir
      /\ save_error_record JSON_stringify j clk fileName e st = st).
Proof.
  intros errorDir. unfold save_error_record. fold errorDir.
  destruct (length errorDir <=? NAME_MAX) eqn:E.
  - left. apply Nat.leb_le in E. now split.
  - right. apply Nat.leb_gt in E. now split.
Qed.




Lemma placeholder_not_empty (fileName : text) : placeholder fileName <> [].
Proof. unfold placeholder. discriminate. Qed.



(** ** Sorting *)

Section SortFacts.
Variable A : Type.
Variable cmp : A -> A -> option Z.

Lemma sort_insert_perm (x : A) (l : list A) :
  Permutation (sort_insert cmp x l) (x :: l).
Proof.
  induction l as [|y l IH]; cbn [sort_insert]; [reflexivity|].
  destruct (goes_after cmp x y); [|reflexivity].
  rewrite IH. apply perm_swap.
Qed.

Lemma js_sort_perm (l : list A) : Permutation (js_sort cmp l) l.
Proof.
  induction l as [|x l IH]; cbn [js_sort fold_right]; [reflexivity|].
  fold (js_sort cmp l). rewrite sort_insert_perm. now constructor.
Qed.

Lemma in_js_sort (x : A) (l : list A) : In x (js_sort cmp l) <-> In x l.
Proof.
  split; apply Permutation_in; [|symmetry]; apply js_sort_perm.
Qed.

End SortFacts.

Lemma sort_insert_descending (x : search_result) (l : list search_result) :
  StronglySorted descending l ->
  StronglySorted descending (sort_insert by_score x l).
Proof.
  induction 1 as [|y l Hs IH Hall]; cbn [sort_insert].
  - repeat constructor.
  - unfold goes_after, by_score.
    destruct (0 <? sr_score y - sr_score x)%Z eqn:E.
    + apply Z.ltb_lt in E. constructor; [assumption|].
      apply Forall_forall. intros z Hz.
      apply (Permutation_in _ (sort_insert_perm _ _ x l)) in Hz.
      destruct Hz as [<- | Hz].
      * unfold descending. lia.
      * rewrite Forall_forall in Hall. now apply Hall.
    + apply Z.ltb_ge in E. constructor; [now constructor|].
      constructor; [unfold descending; lia|].
      apply Forall_forall. intros z Hz. rewrite Forall_forall in Hall.
      specialize (Hall z Hz). unfold descending in *. lia.
Qed.

Lemma js_sort_descending (l : list search_result) :
  StronglySorted descending (js_sort by_score l).
Proof.
  induction l as [|x l IH]; cbn [js_sort fold_right]; [constructor|].
  now apply sort_insert_descending.
Qed.

(** ** The page marker *)

Lemma take_digits_split (s d r : text) :
  take_digits s = (d, r) -> s = d ++ r /\ forallb is_digit d = true.
Proof.
  revert d r; induction s as [|c s IH]; intros d r; cbn [take_digits].
  - intros H. injection H as <- <-. now split.
  - destruct (is_digit c) eqn:Hc.
    + destruct (take_digits s) as [d' r'].
      intros H. injection H as <- <-.
      destruct (IH d' r' eq_refl) as [-> Hd]. cbn [app forallb].
      now rewrite Hc, Hd.
    + intros H. injection H as <- <-. now split.
Qed.

Lemma take_digits_run (d r : text) :
  forallb is_digit d = true ->
  take_digits (d ++ 93%N :: r) = (d, 93%N :: r).
Proof.
  induction d as [|c d IH]; cbn [forallb app take_digits].
  - intros _. reflexivity.
  - intros H. apply andb_true_iff in H as [-> H]. now rewrite IH.
Qed.

Lemma match_page_here_marker (d r : text) :
  digits d -> match_page_here (page_marker d ++ r) = Some (parseInt d).
Proof.
  intros [Hne Hd]. unfold match_page_here, page_marker.
  assert (Hsw : startsWith (lit "[Page ") ((lit "[Page " ++ d ++ lit "]") ++ r) = true).
  { apply startsWith_spec. exists (d ++ lit "]" ++ r). now rewrite <- !app_assoc. }
  rewrite Hsw.
  assert (Hskip : skipn 6 ((lit "[Page " ++ d ++ lit "]") ++ r) = d ++ 93%N :: r).
  { rewrite <- !app_assoc. reflexivity. }
  rewrite Hskip, (take_digits_run d r Hd).
  destruct d; [contradiction | reflexivity].
Qed.

Lemma match_page_here_some (s : text) (n : number) :
  match_page_here s = Some n ->
  exists d, marker_at s [] d /\ n = parseInt d.
Proof.
  unfold match_page_here.
  destruct (startsWith (lit "[Page ") s) eqn:Hsw; [|discriminate].
  apply startsWith_spec in Hsw as [s1 ->].
  change (skipn 6 (lit "[Page " ++ s1)) with s1.
  destruct (take_digits s1) as [d r] eqn:Htd.
  apply take_digits_split in Htd as [-> Hd].
  destruct d as [|c d]; [discriminate|].
  destruct r as [|b r]; [discriminate|].
  destruct (N.eqb b 93) eqn:Hb.
  - apply N.eqb_eq in Hb. subst b. intros H. injection H as <-.
    exists (c :: d). split; [|reflexivity].
    split; [split; [discriminate | assumption]|].
    exists r. unfold page_marker. rewrite <- !app_assoc. reflexivity.
  - intros H. exfalso. apply N.eqb_neq in Hb.
    destruct b as [|b]; [discriminate|].
    do 7 (destruct b as [b|b|]; try discriminate). now apply Hb.
Qed.

(** [match_page] gives the number of the first marker. *)
Lemma match_page_some (s : text) (n : number) :
  match_page s = Some n ->
  exists a d,
    marker_at s a d /\ n = parseInt d
    /\ forall a' d', marker_at s a' d' -> length a <= length a'.
Proof.
  induction s as [|c s IH]; cbn [match_page].
  - destruct (match_page_here []) eqn:E; [|discriminate].
    vm_compute in E. discriminate.
  - destruct (match_page_here (c :: s)) as [m|] eqn:E.
    + intros H. injection H as <-.
      apply match_page_here_some in E as [d [Hm Hn]].
      exists [], d. repeat split; try apply Hm; try assumption.
      intros a' d' _. cbn [length]. lia.
    + intros H. destruct (IH H) as [a [d [[Hd [r Hs]] [Hn Hmin]]]].
      exists (c :: a), d. split; [|split; [assumption|]].
      * split; [assumption|]. exists r. cbn [app]. now rewrite Hs.
      * intros [|x a'] d' [Hd' [r' Hs']].
        -- cbn [app] in Hs'. rewrite Hs' in E.
           rewrite (match_page_here_marker d' r' Hd') in E. discriminate.
        -- cbn [app] in Hs'. injection Hs' as _ Hs'.
           cbn [length]. apply le_n_S. apply (Hmin a' d').
           split; [assumption|]. now exists r'.
Qed.

(** [match_page] gives [null] when no marker stands in the string. *)
Lemma match_page_none (s : text) :
  match_page s = None -> forall a d, ~ marker_at s a d.
Proof.
  induction s as [|c s IH]; cbn [match_page].
  - intros _ a d [Hd [r Hs]]. unfold page_marker in Hs.
    destruct a; discriminate.
  - destruct (match_page_here (c :: s)) as [m|] eqn:E; [discriminate|].
    intros H [|x a] d [Hd [r Hs]].
    + cbn [app] in Hs. rewrite Hs in E.
      rewrite (match_page_here_marker d r Hd) in E. discriminate.
    + cbn [app] in Hs. injection Hs as _ Hs.
      apply (IH H a d). split; [assumption|]. now exists r.
Qed.

(** ** The listing *)

Section ServerFacts.
Variable utf8_decode : list Byte.byte -> text.
Variable JSON_parse : text -> option json.
Variable toLowerCase : text -> text.
Variable Date_value : jsval -> option Z.

Abbreviation readFile' := (readFile utf8_decode).
Abbreviation listed := (listProcessedPDFs utf8_decode JSON_parse Date_value).
Abbreviation search := (searchPDFs utf8_decode JSON_parse toLowerCase Date_value).
Abbreviation search_one' := (search_one utf8_decode toLowerCase).
Abbreviation getPDFContent' := (getPDFContent utf8_decode).

Lemma pdf_of_item_some (fs : option storage) (item : dirent) (p : pdf) :
  pdf_of_item utf8_decode JSON_parse fs item = Some p ->
  id p = d_name item
  /\ exists t metadata,
       readFile' fs (d_name item) (lit "metadata.json") = Some t
       /\ JSON_parse t = Some metadata.
Proof.
  unfold pdf_of_item.
  destruct (readFile' fs (d_name item) (lit "metadata.json")) as [t|];
    [|discriminate].
  destruct (JSON_parse t) as [metadata|] eqn:Hparse; [|discriminate].
  destruct metadata; try discriminate;
    intros H; injection H as <-; (split; [reflexivity|]);
    exists t; eexists; (split; [reflexivity | exact Hparse]).
Qed.

Lemma collect_pdfs_in (fs : option storage) (items : list dirent) (p : pdf) :
  In p (collect_pdfs utf8_decode JSON_parse fs items) ->
  exists item,
    In item items /\ d_isDirectory item = true
    /\ startsWith (lit "error_") (d_name item) = false
    /\ pdf_of_item utf8_decode JSON_parse fs item = Some p.
Proof.
  induction items as [|item items IH]; cbn [collect_pdfs]; [intros []|].
  destruct (d_isDirectory item && negb (startsWith (lit "error_") (d_name item)))
    eqn:Hok.
  - apply andb_true_iff in Hok as [Hdir Hname]. apply negb_true_iff in Hname.
    destruct (pdf_of_item utf8_decode JSON_parse fs item) as [p'|] eqn:Hp.
    + intros [<- | H].
      * exists item. repeat split; try assumption. now left.
      * destruct (IH H) as [it [Hin Hrest]]. exists it. split; [now right | assumption].
    + intros H. destruct (IH H) as [it [Hin Hrest]].
      exists it. split; [now right | assumption].
  - intros H. destruct (IH H) as [it [Hin Hrest]].
    exists it. split; [now right | assumption].
Qed.

(** Every listed document is a discoverable directory. *)
Lemma listed_discoverable (fs : option storage) (p : pdf) :
  In p (listed fs) -> discoverable utf8_decode JSON_parse fs (id p).
Proof.
  unfold listProcessedPDFs. destruct fs as [st|]; [|intros []].
  intros H. apply in_js_sort in H.
  apply collect_pdfs_in in H as [item [Hin [Hdir [Hname Hp]]]].
  apply pdf_of_item_some in Hp as [Hid [t [metadata [Hread Hparse]]]].
  exists st, item, t, metadata. rewrite Hid. repeat split; assumption.
Qed.

Lemma pdfsToSearch_incl (pdfs : list pdf) (pdfId : option text) (p : pdf) :
  In p (pdfsToSearch pdfs pdfId) -> In p pdfs.
Proof.
  unfold pdfsToSearch. destruct pdfId as [[|c s]|]; try tauto.
  intros H. now apply filter_In in H.
Qed.

Lemma search_one_pdfId (fs : option storage) (q : text) (p : pdf)
    (r : search_result) :
  In r (search_one' fs q p) -> sr_pdfId r = id p.
Proof.
  unfold search_one.
  destruct (getPDFContent' fs (id p) 5000) as [[|c content]|]; try (intros []).
  assert (Hhit : forall r',
             In r' (if includes q (toLowerCase (c :: content))
                    then [content_result toLowerCase p q (c :: content)] else []) ->
             sr_pdfId r' = id p).
  { intros r'. destruct (includes q (toLowerCase (c :: content))); [|intros []].
    intros [<- | []]. reflexivity. }
  destruct (name p) as [[| | |n| |]|]; try apply Hhit.
  intros H. apply in_app_or in H as [H | H]; [now apply Hhit|].
  destruct (includes q (toLowerCase n)); [|destruct H].
  destruct H as [<- | []]. reflexivity.
Qed.

Lemma in_search (fs : option storage) (query : text) (pdfId : option text)
    (r : search_result) :
  In r (search fs query pdfId)
  <-> exists p, In p (pdfsToSearch (listed fs) pdfId)
                /\ In r (search_one' fs (toLowerCase query) p).
Proof.
  unfold searchPDFs. rewrite in_js_sort, in_flat_map. reflexivity.
Qed.

Lemma resolve_target_in (fs : option storage) (pdfId : option text) (p : pdf) :
  resolve_target utf8_decode JSON_parse Date_value fs pdfId = Target p ->
  In p (listed fs).
Proof.
  unfold resolve_target. destruct (listed fs) as [|first rest] eqn:Hl;
    [discriminate|].
  destruct pdfId as [[|c s]|].
  - intros H. injection H as <-. now left.
  - destruct (find (fun p0 => text_eqb (id p0) (c :: s)) (first :: rest))
      as [t|] eqn:Hf; [|discriminate].
    intros H. injection H as <-. now apply find_some in Hf.
  - intros H. injection H as <-. now left.
Qed.

Lemma resolve_target_available (fs : option storage) (pdfId : option text)
    (l : list (text * jsval)) :
  resolve_target utf8_decode JSON_parse Date_value fs pdfId = NotFound l ->
  map fst l = map id (listed fs).
Proof.
  unfold resolve_target. destruct (listed fs) as [|first rest] eqn:Hl;
    [discriminate|].
  destruct pdfId as [[|c s]|]; try discriminate.
  destruct (find (fun p0 => text_eqb (id p0) (c :: s)) (first :: rest));
    [discriminate|].
  intros H. injection H as <-.
  change (map fst (map (fun p => (id p, name p)) (first :: rest))
          = map id (first :: rest)).
  exact (map_map _ _ _).
Qed.

(** C10: an id shown by a read path ([/pdfs], the target of [/chat] or
    its list of available documents, the search, [/recent]) is the name of
    a directory of the storage tree that does not start with [error_] and
    whose [metadata.json] is read and parsed; so a directory whose name
    starts with [error_], or whose [metadata.json] is missing or does not
    parse, is shown by none of them.  The read paths are total functions:
    such a directory makes none of them throw. *)
Theorem read_paths_skip_undiscoverable (fs : option storage) (query : text)
    (pdfId : option text) (i : text) :
  (surfaced utf8_decode JSON_parse toLowerCase Date_value fs query pdfId i ->
   discoverable utf8_decode JSON_parse fs i)
  /\ (startsWith (lit "error_") i = true
      \/ (forall t, readFile' fs i (lit "metadata.json") = Some t ->
                    JSON_parse t = None) ->
      ~ surfaced utf8_decode JSON_parse toLowerCase Date_value fs query pdfId i).
Proof.
  assert (Hmain : surfaced utf8_decode JSON_parse toLowerCase Date_value fs
                    query pdfId i ->
                  discoverable utf8_decode JSON_parse fs i).
  { assert (Hids : In i (map id (listed fs)) ->
                   discoverable utf8_decode JSON_parse fs i).
    { intros H. apply in_map_iff in H as [p [<- Hp]].
      now apply listed_discoverable. }
    intros [H | [[p [Ht <-]] | [[l [Ht H]] | [H | H]]]].
    - now apply Hids.
    - apply listed_discoverable. now apply resolve_target_in in Ht.
    - apply Hids. now rewrite <- (resolve_target_available _ _ _ Ht).
    - apply in_map_iff in H as [r [<- Hr]].
      apply in_search in Hr as [p [Hp Hr]].
      rewrite (search_one_pdfId _ _ _ _ Hr).
      apply listed_discoverable. now apply pdfsToSearch_incl in Hp.
    - apply Hids. apply in_map_iff in H as [p [<- Hp]].
      apply in_map. unfold recent in Hp. now apply in_firstn in Hp. }
  split; [exact Hmain|].
  intros Hbad Hs. apply Hmain in Hs.
  destruct Hs as [st [item [t [metadata [_ [_ [_ [_ [Hname [Hread Hparse]]]]]]]]]].
  destruct Hbad as [Hbad | Hbad]; [congruence|].
  rewrite (Hbad t Hread) in Hparse. discriminate.
Qed.

(** ** The search *)

Lemma substring_prefix (n : nat) (s : text) : substring 0 n s = firstn n s.
Proof.
  unfold substring. rewrite Nat.min_0_l, Nat.max_0_l, Nat.sub_0_r. reflexivity.
Qed.

(** The text the search works on: the extracted text, cut after 5000
    units and then followed by a note. *)
Lemma getPDFContent_spec (fs : option storage) (pdfId content : text) (n : nat) :
  getPDFContent' fs pdfId n = Some content ->
  exists text,
    readFile' fs pdfId (lit "extracted_text.txt") = Some text
    /\ content = if n <? length text
                 then firstn n text ++ lit "... (truncated)" else text.
Proof.
  unfold getPDFContent.
  destruct (readFile' fs pdfId (lit "extracted_text.txt")) as [text|];
    [|discriminate].
  intros H. exists text. split; [reflexivity|].
  destruct (n <? length text); injection H as <-;
    [now rewrite substring_prefix | reflexivity].
Qed.

(** The result of a content match, by the place of the first
    occurrence. *)
Lemma content_result_window (p : pdf) (q content : text) :
  includes q (toLowerCase content) = true ->
  exists a,
    first_occurrence q (toLowerCase content) a
    /\ content_result toLowerCase p q content
       = SearchResult (id p) (name p) 100
           (lit "..." ++ context_window content (length a) (length q) ++ lit "...")
           (PageRef (match_page (context_window content (length a) (length q))))
           text_search.
Proof.
  intros Hinc.
  destruct (indexOf_from_spec q (toLowerCase content) 0 Hinc)
    as [a [r [Hs [Hidx Hmin]]]].
  exists a. split; [split; [now exists r | exact Hmin]|].
  unfold content_result, indexOf, extractPageNumberFromContext, context_window.
  rewrite Hidx.
  replace (Z.to_nat (Z.max 0 (0 + Z.of_nat (length a) - 150)))
    with (length a - 150) by lia.
  replace (Z.to_nat (Z.min (Z.of_nat (length content))
                       (0 + Z.of_nat (length a) + Z.of_nat (length q) + 150)))
    with (Nat.min (length content) (length a + length q + 150)) by lia.
  reflexivity.
Qed.

Lemma search_one_content (fs : option storage) (q : text) (p : pdf)
    (content : text) :
  getPDFContent' fs (id p) 5000 = Some content ->
  content <> [] ->
  includes q (toLowerCase content) = true ->
  In (content_result toLowerCase p q content) (search_one' fs q p).
Proof.
  intros Hc Hne Hinc. unfold search_one. rewrite Hc.
  destruct content as [|c content]; [contradiction|].
  rewrite Hinc.
  destruct (name p) as [[| | |n| |]|]; now left.
Qed.

Lemma search_one_text_search (fs : option storage) (q : text) (p : pdf)
    (r : search_result) :
  In r (search_one' fs q p) ->
  sr_matchType r = text_search ->
  exists content,
    getPDFContent' fs (id p) 5000 = Some content
    /\ includes q (toLowerCase content) = true
    /\ r = content_result toLowerCase p q content.
Proof.
  unfold search_one.
  destruct (getPDFContent' fs (id p) 5000) as [[|c content]|]; try (intros []).
  assert (Hhit : In r (if includes q (toLowerCase (c :: content))
                       then [content_result toLowerCase p q (c :: content)] else []) ->
                 exists content0,
                   Some (c :: content) = Some content0
                   /\ includes q (toLowerCase content0) = true
                   /\ r = content_result toLowerCase p q content0).
  { destruct (includes q (toLowerCase (c :: content))) eqn:Hinc; [|intros []].
    intros [<- | []]. exists (c :: content). now repeat split. }
  destruct (name p) as [[| | |n| |]|]; try (intros H _; now apply Hhit).
  intros H Hkind. apply in_app_or in H as [H | H]; [now apply Hhit|].
  destruct (includes q (toLowerCase n)); [|destruct H].
  destruct H as [<- | []]. discriminate.
Qed.

End ServerFacts.

Lemma read_paths_skip_undiscoverable_witness :
  surfaced ascii_decode sample_parse ascii_lower sample_date read_storage
    (lit "refund") None (lit "report.pdf_7_1700000000000")
  /\ discoverable ascii_decode sample_parse read_storage
       (lit "report.pdf_7_1700000000000")
  /\ startsWith (lit "error_") (lit "error_gone.pdf_1700000000000") = true
  /\ ~ surfaced ascii_decode sample_parse ascii_lower sample_date read_storage
         (lit "refund") None (lit "error_gone.pdf_1700000000000").
Proof.
  assert (Hs : surfaced ascii_decode sample_parse ascii_lower sample_date
                 read_storage (lit "refund") None
                 (lit "report.pdf_7_1700000000000")).
  { left. vm_compute. left. reflexivity. }
  split; [exact Hs|].
  split.
  - exact (proj1 (read_paths_skip_undiscoverable ascii_decode sample_parse
                    ascii_lower sample_date read_storage (lit "refund") None
                    (lit "report.pdf_7_1700000000000")) Hs).
  - split; [reflexivity|].
    apply (proj2 (read_paths_skip_undiscoverable ascii_decode sample_parse
                    ascii_lower sample_date read_storage (lit "refund") None
                    (lit "error_gone.pdf_1700000000000"))).
    left. reflexivity.
Defined.

(** C3, as amended: for a searched document whose text content was read
    and is not empty, a filename that holds the query, both in lower case,
    gives a result of score 80 without page reference, whether or not the
    content matched. *)
Theorem filename_match_with_content utf8_decode JSON_parse toLowerCase
    Date_value fs query pdfId p n c s :
  In p (pdfsToSearch (listProcessedPDFs utf8_decode JSON_parse Date_value fs) pdfId) ->
  name p = Some (JStr n) ->
  includes (toLowerCase query) (toLowerCase n) = true ->
  getPDFContent utf8_decode fs (id p) 5000 = Some (c :: s) ->
  exists r,
    In r (searchPDFs utf8_decode JSON_parse toLowerCase Date_value fs query pdfId)
    /\ sr_pdfId r = id p
    /\ sr_score r = 80%Z
    /\ sr_pageRef r = NoPageRef
    /\ sr_matchType r = filename.
Proof.
  intros Hp Hname Hmatch Hcontent.
  exists (filename_result p n). split; [|now repeat split].
  apply in_search. exists p. split; [assumption|].
  unfold search_one. rewrite Hcontent, Hname, Hmatch.
  apply in_or_app. right. now left.
Qed.

Lemma filename_match_with_content_witness :
  In report_pdf
    (pdfsToSearch (listProcessedPDFs ascii_decode sample_parse sample_date read_storage)
       None)
  /\ includes (ascii_lower (lit "REPORT")) (ascii_lower (lit "report.pdf")) = true
  /\ exists r,
       In r (searchPDFs ascii_decode sample_parse ascii_lower sample_date
               read_storage (lit "REPORT") None)
       /\ sr_score r = 80%Z
       /\ sr_pageRef r = NoPageRef.
Proof.
  assert (Hin : In report_pdf
                  (pdfsToSearch
                     (listProcessedPDFs ascii_decode sample_parse sample_date
                        read_storage) None))
    by (vm_compute; left; reflexivity).
  split; [exact Hin|]. split; [reflexivity|].
  destruct (filename_match_with_content ascii_decode sample_parse ascii_lower
              sample_date read_storage (lit "REPORT") None report_pdf
              (lit "report.pdf") 91%N (skipn 1 report_text)
              Hin eq_refl eq_refl eq_refl)
    as [r [Hr [_ [Hscore [Hpage _]]]]].
  exists r. repeat split; assumption.
Defined.

(** C3, as stated, fails: the document [report.pdf] is listed and its
    filename holds the query, but its extracted text cannot be read, and
    the search returns no result at all. *)
Lemma filename_match_needs_content :
  pdfsToSearch (listProcessedPDFs ascii_decode sample_parse sample_date unread_storage)
    None = [report_pdf]
  /\ name report_pdf = Some (JStr (lit "report.pdf"))
  /\ includes (ascii_lower (lit "report")) (ascii_lower (lit "report.pdf")) = true
  /\ getPDFContent ascii_decode unread_storage (id report_pdf) 5000 = None
  /\ searchPDFs ascii_decode sample_parse ascii_lower sample_date unread_storage
       (lit "report") None = []
  /\ ~ exists r,
        In r (searchPDFs ascii_decode sample_parse ascii_lower sample_date
                unread_storage (lit "report") None)
        /\ sr_score r = 80%Z.
Proof.
  assert (Hnone : searchPDFs ascii_decode sample_parse ascii_lower sample_date
                    unread_storage (lit "report") None = [])
    by (vm_compute; reflexivity).
  repeat split; try (vm_compute; reflexivity).
  intros [r [Hr _]]. rewrite Hnone in Hr. destruct Hr.
Qed.

(** C8, as amended: the results are sorted by descending score; for a
    searched document, the string searched is what [getPDFContent] gives
    for a bound of 5000: the extracted text itself when it has at most
    5000 units, and otherwise its first 5000 units followed by the note
    [... (truncated)], so that a match may lie in the note; when this
    string is not empty and holds the query, both in lower case, the
    results hold one of score 100 whose context is the window of up to 150
    units on each side of the first occurrence, between two ["..."], and
    whose page reference is [parseInt] of the digits of the first page
    marker of the window, or [null] without one; and each [text_search]
    result is such a result. *)
Theorem text_search_results utf8_decode JSON_parse toLowerCase Date_value
    fs query pdfId :
  let q := toLowerCase query in
  let pdfs := pdfsToSearch (listProcessedPDFs utf8_decode JSON_parse Date_value fs) pdfId in
  let results := searchPDFs utf8_decode JSON_parse toLowerCase Date_value fs query pdfId in
  StronglySorted descending results
  /\ (forall p content,
        In p pdfs ->
        getPDFContent utf8_decode fs (id p) 5000 = Some content ->
        (exists text,
            readFile utf8_decode fs (id p) (lit "extracted_text.txt") = Some text
            /\ content = if 5000 <? length text
                         then firstn 5000 text ++ lit "... (truncated)" else text)
        /\ (content <> [] ->
            includes q (toLowerCase content) = true ->
            exists a,
              first_occurrence q (toLowerCase content) a
              /\ let window := context_window content (length a) (length q) in
                 In (SearchResult (id p) (name p) 100
                       (lit "..." ++ window ++ lit "...")
                       (PageRef (match_page window)) text_search) results
                 /\ (forall n, match_page window = Some n ->
                       exists b d,
                         marker_at window b d /\ n = parseInt d
                         /\ forall b' d', marker_at window b' d' ->
                                          length b <= length b')
                 /\ (match_page window = None ->
                     forall b d, ~ marker_at window b d)))
  /\ (forall r,
        In r results -> sr_matchType r = text_search ->
        sr_score r = 100%Z
        /\ exists p content,
             In p pdfs
             /\ getPDFContent utf8_decode fs (id p) 5000 = Some content
             /\ includes q (toLowerCase content) = true
             /\ r = content_result toLowerCase p q content).
Proof.
  intros q pdfs results. split; [apply js_sort_descending|]. split.
  - intros p content Hp Hcontent.
    split; [now apply (getPDFContent_spec utf8_decode fs (id p))|].
    intros Hne Hinc.
    destruct (content_result_window toLowerCase p q content Hinc)
      as [a [Hfirst Hres]].
    exists a. split; [exact Hfirst|]. cbv zeta. split; [|split].
    + rewrite <- Hres. apply in_search. exists p. split; [exact Hp|].
      now apply search_one_content.
    + apply match_page_some.
    + apply match_page_none.
  - intros r Hr Hkind. apply in_search in Hr as [p [Hp Hr]].
    destruct (search_one_text_search utf8_decode toLowerCase fs q p r Hr Hkind)
      as [content [Hc [Hinc ->]]].
    split; [reflexivity|]. now exists p, content.
Qed.

Lemma text_search_results_witness :
  In report_pdf
    (pdfsToSearch (listProcessedPDFs ascii_decode sample_parse sample_date read_storage)
       None)
  /\ getPDFContent ascii_decode read_storage (id report_pdf) 5000 = Some report_text
  /\ includes (ascii_lower (lit "Refund Policy")) (ascii_lower report_text) = true
  /\ exists a,
       first_occurrence (ascii_lower (lit "Refund Policy")) (ascii_lower report_text) a
       /\ In (SearchResult (id report_pdf) (name report_pdf) 100
                (lit "..."
                 ++ context_window report_text (length a)
                      (length (ascii_lower (lit "Refund Policy")))
                 ++ lit "...")
                (PageRef (match_page
                            (context_window report_text (length a)
                               (length (ascii_lower (lit "Refund Policy"))))))
                text_search)
            (searchPDFs ascii_decode sample_parse ascii_lower sample_date
               read_storage (lit "Refund Policy") None).
Proof.
  assert (Hin : In report_pdf
                  (pdfsToSearch
                     (listProcessedPDFs ascii_decode sample_parse sample_date
                        read_storage) None))
    by (vm_compute; left; reflexivity).
  split; [exact Hin|]. split; [reflexivity|]. split; [reflexivity|].
  destruct (text_search_results ascii_decode sample_parse ascii_lower sample_date
              read_storage (lit "Refund Policy") None) as [_ [Hhit _]].
  destruct (Hhit report_pdf report_text Hin eq_refl) as [_ Hmatch].
  destruct Hmatch as [a [Ha [Hres _]]]; [discriminate | reflexivity |].
  exists a. split; [exact Ha | exact Hres].
Defined.

(** C8, as stated, fails, in two ways.  The query [refund] matches the
    text of [report.pdf]; the window around the first occurrence is the
    whole text, its first page marker gives 4, and the one result has
    score 100 and page reference 4, but its context is not the window: it
    is the window between two ["..."].  And the text of 5001 letters [a]
    does not hold the query [truncated], yet the search, which reads its
    first 5000 units followed by the note, gives a content match of score
    100. *)
Lemma context_is_decorated :
  (exists r,
     searchPDFs ascii_decode sample_parse ascii_lower sample_date read_storage
       (lit "refund") None = [r]
     /\ indexOf (ascii_lower (lit "refund")) (ascii_lower report_text) = 13%Z
     /\ context_window report_text 13 6 = report_text
     /\ sr_score r = 100%Z
     /\ sr_pageRef r = PageRef (Some (Finite 4))
     /\ sr_context r = lit "..." ++ context_window report_text 13 6 ++ lit "..."
     /\ sr_context r <> context_window report_text 13 6)
  /\ (exists r,
        readFile ascii_decode long_storage (lit "report.pdf_7_1700000000000")
          (lit "extracted_text.txt") = Some long_letters
        /\ includes (ascii_lower (lit "truncated")) (ascii_lower long_letters) = false
        /\ searchPDFs ascii_decode sample_parse ascii_lower sample_date long_storage
             (lit "truncated") None = [r]
        /\ sr_score r = 100%Z
        /\ sr_matchType r = text_search).
Proof.
  split.
  - eexists. split; [vm_compute; reflexivity|].
    repeat split; try (vm_compute; reflexivity).
    vm_compute. discriminate.
  - eexists. split; [vm_compute; reflexivity|].
    split; [vm_compute; reflexivity|].
    split; [vm_compute; reflexivity|].
    split; reflexivity.
Qed.

(** ** Further properties of the chunker *)

Lemma length_substring_window (a n : nat) (s : text) :
  length (substring a (a + n) s) <= n.
Proof.
  unfold substring. rewrite (Nat.min_l a (a + n)), (Nat.max_r a (a + n)) by lia.
  rewrite length_firstn. lia.
Qed.

Lemma in_windows (t : text) (w : nat * text) :
  In w (windows t) ->
  exists k,
    k * (chunkSize - overlap) < length t
    /\ w = (k * (chunkSize - overlap),
            substring (k * (chunkSize - overlap))
              (k * (chunkSize - overlap) + chunkSize) t).
Proof.
  unfold windows, windows_from. intros H.
  apply in_map_iff in H as [k [<- Hk]]. apply in_seq in Hk.
  exists k. split; [|reflexivity].
  apply (below_ceil_div k (length t) _ step_pos). lia.
Qed.

(** X1: the chunker never gives more than 50 chunks nor a chunk longer
    than the window; on a text longer than the window every chunk is not
    blank and is the window of the text cut at a multiple of
    [chunkSize - overlap] below the length. *)
Theorem chunks_bounded (t : text) :
  length (split_chunks t) <= 50
  /\ forall c, In c (split_chunks t) ->
       length c <= chunkSize
       /\ (chunkSize < length t ->
           trim c <> []
           /\ exists k,
                k * (chunkSize - overlap) < length t
                /\ c = substring (k * (chunkSize - overlap))
                         (k * (chunkSize - overlap) + chunkSize) t).
Proof.
  destruct (Nat.le_gt_cases (length t) chunkSize) as [Hle | Hgt].
  - unfold split_chunks. rewrite (chunks_with_offsets_short t Hle).
    cbn [map snd length]. split; [lia|].
    intros c [<- | []]. split; [assumption | lia].
  - unfold split_chunks. rewrite (chunks_with_offsets_long t Hgt).
    split.
    + rewrite length_map, length_firstn. lia.
    + intros c Hc. apply in_map_iff in Hc as [w [<- Hw]].
      apply in_firstn in Hw. apply filter_In in Hw as [Hw Hnb].
      apply in_windows in Hw as [k [Hk ->]]. cbn [snd].
      split; [apply length_substring_window|].
      intros _. split.
      * unfold nonblank in Hnb. cbn [snd] in Hnb. apply Nat.ltb_lt in Hnb.
        intros Hnil. rewrite Hnil in Hnb. cbn [length] in Hnb. lia.
      * now exists k.
Qed.

Lemma chunks_bounded_witness :
  chunkSize < length long_text
  /\ In (repeat 97%N 1) (split_chunks long_text)
  /\ trim (repeat 97%N 1) <> [].
Proof.
  assert (Hlong : chunkSize < length long_text)
    by (apply Nat.ltb_lt; vm_compute; reflexivity).
  assert (Hin : In (repeat 97%N 1) (split_chunks long_text))
    by (vm_compute; right; right; left; reflexivity).
  split; [exact Hlong|]. split; [exact Hin|].
  exact (proj1 (proj2 (proj2 (chunks_bounded long_text) _ Hin) Hlong)).
Defined.

Lemma firstn_add_split (A : Type) (a b : nat) (l : list A) :
  firstn (a + b) l = firstn a l ++ firstn b (skipn a l).
Proof.
  revert l; induction a as [|a IH]; intros l; [reflexivity|].
  destruct l as [|x l]; cbn [Nat.add firstn skipn app].
  - now rewrite firstn_nil.
  - now rewrite IH.
Qed.

(** The first [s] units of the windows, put end to end, are the text. *)
Lemma pieces_cover (t : text) (s extra : nat) :
  forall n j,
    concat (map (fun k => firstn s (substring (k * s) (k * s + (s + extra)) t))
                (seq j n))
    = firstn (n * s) (skipn (j * s) t).
Proof.
  induction n as [|n IH]; intros j; cbn [seq map concat]; [reflexivity|].
  rewrite IH. unfold substring.
  rewrite (Nat.min_l (j * s)), (Nat.max_r (j * s)) by lia.
  replace (j * s + (s + extra) - j * s) with (s + extra) by lia.
  rewrite firstn_firstn, Nat.min_l by lia.
  replace (S n * s) with (s + n * s) by (cbn [Nat.mul]; lia).
  rewrite firstn_add_split, skipn_skipn.
  replace (s + j * s) with (S j * s) by (cbn [Nat.mul]; lia).
  reflexivity.
Qed.

Lemma chunkSize_split : chunkSize = (chunkSize - overlap) + overlap.
Proof. apply Nat.eqb_eq. vm_compute. reflexivity. Qed.

(** X2: when a text longer than the window has at most 50 windows and
    none of them is blank, nothing of the text is lost: the first
    [chunkSize - overlap] units of the chunks, put end to end, are the text
    again. *)
Theorem chunks_cover_text (t : text) :
  chunkSize < length t ->
  ceil_div (length t) (chunkSize - overlap) <= 50 ->
  forallb nonblank (windows t) = true ->
  concat (map (firstn (chunkSize - overlap)) (split_chunks t)) = t.
Proof.
  intros Hgt Hcap Hall. unfold split_chunks.
  rewrite (chunks_with_offsets_long t Hgt), (filter_all _ _ _ Hall).
  rewrite firstn_short by (rewrite length_windows; exact Hcap).
  unfold windows, windows_from. rewrite !map_map. cbn [snd window].
  rewrite (map_ext _ (fun k => firstn (chunkSize - overlap)
             (substring (k * (chunkSize - overlap))
                (k * (chunkSize - overlap) + (chunkSize - overlap + overlap)) t)))
    by (intros k; now rewrite <- chunkSize_split).
  rewrite (pieces_cover t (chunkSize - overlap) overlap).
  cbn [Nat.mul skipn]. apply firstn_all2.
  set (n := ceil_div (length t) (chunkSize - overlap)).
  destruct (Nat.le_gt_cases (length t) (n * (chunkSize - overlap))) as [H | H];
    [exact H|].
  apply (below_ceil_div n (length t) _ step_pos) in H. unfold n in H. lia.
Qed.

Lemma chunks_cover_text_witness :
  chunkSize < length long_text
  /\ concat (map (firstn (chunkSize - overlap)) (split_chunks long_text))
     = long_text.
Proof.
  split; [apply Nat.ltb_lt; vm_compute; reflexivity|].
  apply (chunks_cover_text long_text).
  - apply Nat.ltb_lt. vm_compute. reflexivity.
  - apply Nat.leb_le. vm_compute. reflexivity.
  - vm_compute. reflexivity.
Defined.

(** ** Further properties of the embedding loop *)

Lemma skipn_nth_error (A : Type) (l : list A) (i : nat) (x : A) :
  nth_error l i = Some x -> skipn i l = x :: skipn (S i) l.
Proof.
  revert l; induction i as [|i IH]; intros [|y l]; cbn [nth_error skipn];
    try discriminate.
  - intros H. now injection H as ->.
  - intros H. now apply IH.
Qed.

Lemma embed_loop_exact embedContent jobId chunks :
  forall todo i acc calls,
    i + todo <= length chunks ->
    embed_loop embedContent jobId chunks todo i acc calls
    = (acc ++ flat_map (embedded_of embedContent jobId)
                 (filter (fun ic => negb (length (snd ic) <? 20))
                    (combine (seq i todo) (firstn todo (skipn i chunks)))),
       calls ++ filter (fun ic => negb (length (snd ic) <? 20))
                  (combine (seq i todo) (firstn todo (skipn i chunks)))).
Proof.
  induction todo as [|todo IH]; intros i acc calls Hlen; cbn [embed_loop].
  - cbn [seq combine filter flat_map]. now rewrite !app_nil_r.
  - destruct (nth_error chunks i) as [chunk|] eqn:Hnth.
    + rewrite (skipn_nth_error _ _ _ _ Hnth).
      cbn [firstn seq combine filter snd].
      destruct (length chunk <? 20) eqn:Hshort; cbn [negb].
      * now rewrite IH by lia.
      * cbn [flat_map].
        assert (He : embedded_of embedContent jobId (i, chunk)
                     = match embedContent i chunk with
                       | Ok v =>
                           [Embedded (jobId ++ lit "_" ++ decimal (N.of_nat i))
                              chunk v i (extractPageReference chunk)]
                       | Throw _ => []
                       end) by reflexivity.
        rewrite He.
        destruct (embedContent i chunk) as [v | e];
          rewrite IH by lia; cbn [app]; now rewrite <- !app_assoc.
    + apply nth_error_None in Hnth. lia.
Qed.

Lemma length_flat_map_le (A B : Type) (f : A -> list B) (l : list A) :
  (forall x, length (f x) <= 1) -> length (flat_map f l) <= length l.
Proof.
  intros Hf. induction l as [|x l IH]; cbn [flat_map length]; [lia|].
  rewrite length_app. specialize (Hf x). lia.
Qed.

Lemma embeddings_at_most_ten embedContent jobId chunks :
  length (flat_map (embedded_of embedContent jobId) (due_calls chunks))
  <= Nat.min (length chunks) 10.
Proof.
  etransitivity.
  - apply length_flat_map_le. intros ic. unfold embedded_of.
    destruct (embedContent (fst ic) (snd ic)); cbn [length]; lia.
  - unfold due_calls.
    etransitivity; [apply filter_length_le|].
    rewrite length_combine, length_seq. lia.
Qed.

Lemma generate_embeddings_exact embedContent jobId chunks :
  generate_embeddings embedContent jobId chunks
  = (flat_map (embedded_of embedContent jobId) (due_calls chunks),
     due_calls chunks).
Proof.
  unfold generate_embeddings.
  rewrite (embed_loop_exact embedContent jobId chunks) by (cbn [Nat.add]; lia).
  reflexivity.
Qed.

(** X3: the embedding loop calls the service once for each chunk of at
    least 20 units among the first [min (number of chunks, 10)], in order,
    and [chunksWithEmbeddings] holds, in the same order, one element for
    each call that succeeded: the chunk, its index, its id
    [jobId_index], the vector returned and the page reference of the
    chunk.  So there are never more than 10 embeddings. *)
Theorem embedding_loop_exact embedContent jobId chunks :
  snd (generate_embeddings embedContent jobId chunks) = due_calls chunks
  /\ fst (generate_embeddings embedContent jobId chunks)
     = flat_map (embedded_of embedContent jobId) (due_calls chunks)
  /\ length (fst (generate_embeddings embedContent jobId chunks))
     <= Nat.min (length chunks) 10.
Proof.
  rewrite generate_embeddings_exact. cbn [fst snd].
  split; [reflexivity|]. split; [reflexivity|].
  apply embeddings_at_most_ten.
Qed.

(** ** Further properties of the extraction *)

Lemma trimStart_app (a b : text) :
  trimStart (a ++ b)
  = match trimStart a with
    | [] => trimStart b
    | x :: r => (x :: r) ++ b
    end.
Proof.
  induction a as [|c a IH]; cbn [app trimStart]; [reflexivity|].
  destruct (is_space c); [exact IH | reflexivity].
Qed.

(** [trimEnd] keeps what stands before a unit that is no white space. *)
Lemma trimEnd_after (p r : text) (c : N) :
  is_space c = false -> trimEnd ((p ++ [c]) ++ r) = (p ++ [c]) ++ trimEnd r.
Proof.
  intros Hc. unfold trimEnd.
  rewrite (rev_app_distr (p ++ [c]) r), trimStart_app.
  destruct (trimStart (rev r)) as [|x l].
  - rewrite rev_app_distr. cbn [rev app trimStart]. rewrite Hc.
    change (c :: rev p) with ([c] ++ rev p).
    rewrite rev_app_distr, rev_involutive. cbn [rev app]. now rewrite app_nil_r.
  - now rewrite rev_app_distr, rev_involutive.
Qed.

Lemma extract_pages_app (pages : list page_outcome) :
  forall i fullText,
    extract_pages i pages fullText = fullText ++ extract_pages i pages [].
Proof.
  induction pages as [|[strs | e] pages IH]; intros i fullText;
    cbn [extract_pages].
  - now rewrite app_nil_r.
  - rewrite IH. rewrite (IH _ ([] ++ _)). cbn [app]. now rewrite <- !app_assoc.
  - rewrite IH. rewrite (IH _ ([] ++ _)). cbn [app]. now rewrite <- !app_assoc.
Qed.

Lemma extract_pages_first (p : page_outcome) (ps : list page_outcome) :
  exists rest, extract_pages 1 (p :: ps) [] = lit "[Page 1]" ++ rest.
Proof.
  destruct p as [strs | e]; cbn [extract_pages]; rewrite extract_pages_app;
    eexists; cbn [app]; rewrite <- !app_assoc; reflexivity.
Qed.

Lemma match_page_head (s : text) (n : number) :
  match_page_here s = Some n -> match_page s = Some n.
Proof. intros H. destruct s; cbn [match_page]; now rewrite H. Qed.

Lemma page_one_reference (rest : text) :
  match_page (lit "[Page 1]" ++ rest) = Some (Finite 1).
Proof.
  apply match_page_head.
  apply (match_page_here_marker [49%N] rest).
  split; [discriminate | reflexivity].
Qed.

(** X4: when the PDF library opens a document with at least one page,
    the extraction succeeds with a text that starts with [[Page 1]],
    whatever the pages gave, also when reading every page threw; the page
    reference of that text is 1, and the handler counts the extraction as
    a success.  The error [No text could be extracted from PDF] is that of
    a document without pages. *)
Theorem library_extraction_pages getDocument new_stack fileBuffer :
  (forall p ps,
      getDocument fileBuffer = Document (p :: ps) ->
      exists rest,
        library_extraction getDocument new_stack fileBuffer
        = Ok (lit "[Page 1]" ++ rest)
        /\ extractPageReference (lit "[Page 1]" ++ rest) = Some (Finite 1)
        /\ forall utf8_decode fileName,
             extract_or_placeholder utf8_decode getDocument new_stack
               fileBuffer fileName = (lit "[Page 1]" ++ rest, true))
  /\ (getDocument fileBuffer = Document [] ->
      library_extraction getDocument new_stack fileBuffer
      = Throw (new_Error new_stack (lit "No text could be extracted from PDF"))).
Proof.
  split.
  - intros p ps Hdoc.
    destruct (extract_pages_first p ps) as [rest Hrest].
    assert (Htrim : trim (extract_pages 1 (p :: ps) [])
                    = lit "[Page 1]" ++ trimEnd rest).
    { rewrite Hrest. unfold trim.
      change (trimStart (lit "[Page 1]" ++ rest)) with (lit "[Page 1]" ++ rest).
      change (lit "[Page 1]") with (lit "[Page 1" ++ [93%N]).
      now apply trimEnd_after. }
    assert (Hlib : library_extraction getDocument new_stack fileBuffer
                   = Ok (lit "[Page 1]" ++ trimEnd rest)).
    { unfold library_extraction. rewrite Hdoc, Htrim. reflexivity. }
    exists (trimEnd rest). split; [exact Hlib|].
    split; [apply page_one_reference|].
    intros utf8_decode fileName.
    unfold extract_or_placeholder, extractPDFText. now rewrite Hlib.
  - intros Hdoc. unfold library_extraction. now rewrite Hdoc.
Qed.

Lemma library_extraction_pages_witness :
  exists rest,
    library_extraction
      (fun _ => Document [PageError (Error (lit "bad page") (lit "Error"))])
      sample_stack one_line_buffer
    = Ok (lit "[Page 1]" ++ rest).
Proof.
  destruct (proj1 (library_extraction_pages
                     (fun _ => Document [PageError (Error (lit "bad page") (lit "Error"))])
                     sample_stack one_line_buffer)
              (PageError (Error (lit "bad page") (lit "Error"))) [] eq_refl)
    as [rest [H _]].
  exists rest. exact H.
Defined.

Lemma occurs_head (p r : text) : occurs p (p ++ r).
Proof. now exists [], r. Qed.

Lemma occurs_app_r (p a s : text) : occurs p s -> occurs p (a ++ s).
Proof.
  intros [b [r ->]]. exists (a ++ b), r. now rewrite <- app_assoc.
Qed.

(** The marker of each page stands in the text of the page loop. *)
Lemma extract_pages_marked (pages : list page_outcome) :
  forall i k,
    k < length pages ->
    occurs (page_marker (decimal (i + N.of_nat k))) (extract_pages i pages []).
Proof.
  induction pages as [|p pages IH]; intros i k Hk; cbn [length] in Hk; [lia|].
  destruct k as [|k].
  - replace (i + N.of_nat 0)%N with i by lia.
    destruct p as [strs | e]; cbn [extract_pages]; rewrite extract_pages_app;
      unfold page_marker; eexists [], _; cbn [app]; rewrite <- !app_assoc;
      reflexivity.
  - replace (i + N.of_nat (S k))%N with (i + 1 + N.of_nat k)%N by lia.
    destruct p as [strs | e]; cbn [extract_pages]; rewrite extract_pages_app;
      apply occurs_app_r; apply IH; lia.
Qed.

Lemma occurs_trimEnd (p0 s : text) (c : N) :
  is_space c = false -> occurs (p0 ++ [c]) s -> occurs (p0 ++ [c]) (trimEnd s).
Proof.
  intros Hc [a [r ->]].
  replace (a ++ (p0 ++ [c]) ++ r) with (((a ++ p0) ++ [c]) ++ r)
    by (now rewrite <- !app_assoc).
  rewrite (trimEnd_after (a ++ p0) r c Hc).
  exists a, (trimEnd r). now rewrite <- !app_assoc.
Qed.

(** X5: every page of a document the PDF library opens is marked in
    the extracted text, whether its text was read or not: for each page
    number [k] from 1 to the number of pages the text holds [[Page k]]. *)
Theorem every_page_is_marked getDocument new_stack fileBuffer pages (k : nat) :
  getDocument fileBuffer = Document pages ->
  1 <= k <= length pages ->
  exists text,
    library_extraction getDocument new_stack fileBuffer = Ok text
    /\ occurs (lit "[Page " ++ decimal (N.of_nat k) ++ lit "]") text.
Proof.
  intros Hdoc Hk. destruct pages as [|p ps]; [cbn [length] in Hk; lia|].
  destruct (extract_pages_first p ps) as [rest Hrest].
  pose proof (extract_pages_marked (p :: ps) 1 (k - 1)) as Hmark.
  replace (1 + N.of_nat (k - 1))%N with (N.of_nat k) in Hmark by lia.
  specialize (Hmark ltac:(lia)).
  assert (Htrim : trim (extract_pages 1 (p :: ps) [])
                  = trimEnd (extract_pages 1 (p :: ps) [])).
  { unfold trim. f_equal. now rewrite Hrest. }
  assert (Hocc : occurs (lit "[Page " ++ decimal (N.of_nat k) ++ lit "]")
                   (trim (extract_pages 1 (p :: ps) []))).
  { rewrite Htrim.
    replace (lit "[Page " ++ decimal (N.of_nat k) ++ lit "]")
      with ((lit "[Page " ++ decimal (N.of_nat k)) ++ [93%N])
      by (now rewrite <- app_assoc).
    apply occurs_trimEnd; [reflexivity|].
    now rewrite <- app_assoc. }
  exists (trim (extract_pages 1 (p :: ps) [])). split; [|exact Hocc].
  unfold library_extraction. rewrite Hdoc.
  destruct (trim (extract_pages 1 (p :: ps) [])) as [|c t] eqn:E;
    [|reflexivity].
  destruct Hocc as [a [r Hr]]. destruct a; discriminate.
Qed.

Lemma every_page_is_marked_witness :
  exists text,
    library_extraction
      (fun _ => Document [PageItems [lit "Terms"];
                          PageError (Error (lit "bad page") (lit "Error"))])
      sample_stack one_line_buffer = Ok text
    /\ occurs (lit "[Page 2]") text.
Proof.
  exact (every_page_is_marked
           (fun _ => Document [PageItems [lit "Terms"];
                               PageError (Error (lit "bad page") (lit "Error"))])
           sample_stack one_line_buffer _ 2 eq_refl
           (conj (le_S 1 1 (le_n 1)) (le_n 2))).
Defined.

(** ** Further properties of the job handler *)

Lemma split_chunks_at_most_50 (t : text) : length (split_chunks t) <= 50.
Proof.
  destruct (Nat.le_gt_cases (length t) chunkSize) as [Hle | Hgt];
    unfold split_chunks.
  - rewrite (chunks_with_offsets_short t Hle). cbn [map length]. lia.
  - rewrite (chunks_with_offsets_long t Hgt), length_map, length_firstn. lia.
Qed.



(** ** Numbers in text *)

Lemma uint_digits (u : Decimal.uint) :
  forallb is_digit (lit (NilEmpty.string_of_uint u)) = true.
Proof. induction u; simpl; try reflexivity; assumption. Qed.

Lemma decimal_not_nil (n : N) : decimal n <> [].
Proof.
  unfold decimal. destruct n as [|p]; [discriminate|].
  cbn [N.to_uint]. pose proof (DecimalPos.Unsigned.to_uint_nonnil p) as H.
  destruct (Pos.to_uint p); try contradiction; discriminate.
Qed.

Lemma decimal_digits (n : N) : forallb is_digit (decimal n) = true.
Proof. apply uint_digits. Qed.

Lemma parse_uint_acc (u : Decimal.uint) :
  forall acc,
    fold_left parse_step (lit (NilEmpty.string_of_uint u)) (Npos acc)
    = Npos (Pos.of_uint_acc u acc).
Proof.
  induction u; intros acc; cbn [NilEmpty.string_of_uint Pos.of_uint_acc];
    [reflexivity | ..];
    change (lit (String ?a ?s)) with (N_of_ascii a :: lit s);
    cbn [fold_left]; rewrite <- IHu; f_equal; unfold parse_step.
  all: try (vm_compute N_of_ascii).
  all: lia.
Qed.

Lemma parse_uint (u : Decimal.uint) :
  fold_left parse_step (lit (NilEmpty.string_of_uint u)) 0%N = Pos.of_uint u.
Proof.
  induction u; cbn [NilEmpty.string_of_uint Pos.of_uint];
    [reflexivity | ..];
    change (lit (String ?a ?s)) with (N_of_ascii a :: lit s);
    cbn [fold_left];
    first [ exact IHu | apply (parse_uint_acc u) ].
Qed.

(** The digits of the decimal rendering of a number denote it. *)
Lemma digits_value_decimal (n : N) : digits_value (decimal n) = n.
Proof.
  unfold digits_value, decimal.
  change (fun acc c : N => (10 * acc + (c - 48))%N) with parse_step.
  rewrite parse_uint. apply DecimalN.Unsigned.of_to.
Qed.

Lemma to_double_exact (n : N) : (n < 2 ^ 53)%N -> to_double n = Finite n.
Proof.
  intros H. unfold to_double. apply N.ltb_lt in H. now rewrite H.
Qed.

(** [parseInt] reads back the decimal rendering of a number below
    [2^53]. *)
Lemma parseInt_decimal (n : N) :
  (n < 2 ^ 53)%N -> parseInt (decimal n) = Finite n.
Proof.
  intros H. unfold parseInt. rewrite digits_value_decimal.
  now apply to_double_exact.
Qed.

(** X7: the page marker [extractPDFText] writes for page [i] is read
    back when [i] is below [2^53], where a JavaScript number holds every
    integer: a chunk or a search context that starts with this marker has
    page reference [i].  The bound is sharp: the marker of [2^53 + 1] is
    read as [2^53]. *)
Theorem page_marker_round_trip (i : N) (rest : text) :
  (i < 2 ^ 53)%N ->
  (extractPageReference (lit "[Page " ++ decimal i ++ lit "]" ++ rest)
   = Some (Finite i)
   /\ extractPageNumberFromContext (lit "[Page " ++ decimal i ++ lit "]" ++ rest)
      = Some (Finite i))
  /\ extractPageReference (lit "[Page " ++ decimal (2 ^ 53 + 1) ++ lit "]" ++ rest)
     = Some (Finite (2 ^ 53)).
Proof.
  intros Hi. split; [|apply match_page_head; vm_compute; reflexivity].
  assert (H : match_page (lit "[Page " ++ decimal i ++ lit "]" ++ rest)
              = Some (Finite i)).
  { apply match_page_head.
    replace (lit "[Page " ++ decimal i ++ lit "]" ++ rest)
      with (page_marker (decimal i) ++ rest)
      by (unfold page_marker; now rewrite <- !app_assoc).
    rewrite match_page_here_marker; [now rewrite parseInt_decimal|].
    split; [apply decimal_not_nil | apply decimal_digits]. }
  split; exact H.
Qed.

Lemma page_marker_round_trip_witness :
  (12 < 2 ^ 53)%N
  /\ extractPageReference (lit "[Page 12] Refunds are made within 30 days.")
     = Some (Finite 12)
  /\ extractPageNumberFromContext (lit "[Page 12] Refunds are made within 30 days.")
     = Some (Finite 12).
Proof.
  assert (H : (12 < 2 ^ 53)%N) by reflexivity.
  split; [exact H|].
  exact (proj1 (page_marker_round_trip 12
                  (lit " Refunds are made within 30 days.") H)).
Defined.

(** ** Names of files and directories *)

Lemma until_slash_app (a b : text) :
  no_slash a -> until_slash (a ++ slash :: b) = a.
Proof.
  unfold no_slash. induction a as [|c a IH]; cbn [app until_slash forallb].
  - intros _. now rewrite N.eqb_refl.
  - intros H. apply andb_true_iff in H as [Hc Ha].
    apply negb_true_iff in Hc. rewrite Hc. now rewrite IH.
Qed.

Lemma no_slash_rev (a : text) : no_slash a -> no_slash (rev a).
Proof.
  unfold no_slash. rewrite !forallb_forall. intros H x Hx.
  apply H. now apply in_rev.
Qed.

(** [basename] of a slash-free name below a directory is the name. *)
Lemma basename_join (dir name : text) :
  name <> [] -> no_slash name -> basename (dir ++ slash :: name) = name.
Proof.
  intros Hne Hname. unfold basename.
  rewrite rev_app_distr. cbn [rev]. rewrite <- app_assoc. cbn [app].
  pose proof (no_slash_rev name Hname) as Hrev.
  destruct (rev name) as [|x l] eqn:Hx.
  - apply (f_equal (@rev N)) in Hx. rewrite rev_involutive in Hx. contradiction.
  - assert (Hxs : N.eqb x slash = false).
    { unfold no_slash in Hrev. cbn [forallb] in Hrev.
      apply andb_true_iff in Hrev as [Hrev _]. now apply negb_true_iff in Hrev. }
    cbn [app drop_slashes]. rewrite Hxs.
    change (x :: l ++ slash :: rev dir) with ((x :: l) ++ slash :: rev dir).
    rewrite (until_slash_app (x :: l) (rev dir) Hrev).
    rewrite <- Hx. apply rev_involutive.
Qed.

Lemma no_slash_app (a b : text) : no_slash a -> no_slash b -> no_slash (a ++ b).
Proof. unfold no_slash. intros Ha Hb. now rewrite forallb_app, Ha, Hb. Qed.

Lemma no_slash_firstn (n : nat) (a : text) : no_slash a -> no_slash (firstn n a).
Proof.
  unfold no_slash. rewrite !forallb_forall. intros H x Hx.
  apply H. now apply in_firstn in Hx.
Qed.

Lemma no_slash_sanitize (fileName : text) : no_slash (sanitize fileName).
Proof.
  unfold no_slash, sanitize. induction fileName as [|c f IH];
    cbn [map forallb]; [reflexivity|].
  rewrite IH, andb_true_r.
  destruct (is_safe_char c) eqn:Hc; [|reflexivity].
  apply negb_true_iff. apply N.eqb_neq. intros ->.
  vm_compute in Hc. discriminate.
Qed.

Lemma no_slash_decimal (n : N) : no_slash (decimal n).
Proof.
  unfold no_slash. pose proof (decimal_digits n) as H.
  rewrite forallb_forall in *. intros x Hx. specialize (H x Hx).
  apply negb_true_iff. apply N.eqb_neq. intros ->.
  vm_compute in H. discriminate.
Qed.

Lemma no_slash_document_dir (j : job) (clk : clock) (fileName : text) :
  no_slash (job_id j) -> no_slash (document_dir_name j clk fileName).
Proof.
  intros Hid. unfold document_dir_name.
  repeat apply no_slash_app; try reflexivity; try assumption.
  - apply no_slash_firstn, no_slash_sanitize.
  - apply no_slash_decimal.
Qed.

Lemma document_dir_not_nil (j : job) (clk : clock) (fileName : text) :
  document_dir_name j clk fileName <> [].
Proof.
  unfold document_dir_name. intros H. apply (f_equal (@length N)) in H.
  rewrite !length_app in H. cbn [length lit map list_ascii_of_string] in H. lia.
Qed.





(** ** The record of a job and the listing of the server *)

Lemma readFile_stored utf8_decode (st : storage) (dir file : text) :
  readFile utf8_decode (Some st) dir file
  = match stored_file st dir file with
    | Some (Text t) => Some (toWellFormed t)
    | Some (Bytes b) => Some (utf8_decode b)
    | None => None
    end.
Proof. unfold readFile, stored_file. now destruct (find_dir dir st). Qed.

(** A UTF-8 round trip keeps the length of a string, and keeps a string
    without surrogates as it is. *)
Lemma length_toWellFormed_le (n : nat) (s : text) :
  length s <= n -> length (toWellFormed s) = length s.
Proof.
  revert s; induction n as [|n IH]; intros s Hs.
  - destruct s; [reflexivity | cbn [length] in Hs; lia].
  - destruct s as [|c s]; [reflexivity|]. cbn [length] in Hs.
    cbn [toWellFormed]. destruct (is_high_surrogate c).
    + destruct s as [|c' s]; [reflexivity|]. cbn [length] in Hs.
      destruct (is_low_surrogate c'); cbn [length].
      * rewrite IH by lia. reflexivity.
      * rewrite (IH (c' :: s)) by (cbn [length]; lia). reflexivity.
    + destruct (is_low_surrogate c); cbn [length]; rewrite IH by lia;
        reflexivity.
Qed.

Lemma length_toWellFormed (s : text) : length (toWellFormed s) = length s.
Proof. now apply (length_toWellFormed_le (length s)). Qed.

Lemma toWellFormed_plain (s : text) :
  forallb (fun c => negb (is_high_surrogate c || is_low_surrogate c)) s = true ->
  toWellFormed s = s.
Proof.
  induction s as [|c s IH]; [reflexivity|]. cbn [forallb].
  intros H. apply andb_true_iff in H as [Hc Hs].
  apply negb_true_iff, orb_false_iff in Hc as [Hhigh Hlow].
  cbn [toWellFormed]. rewrite Hhigh, Hlow. now rewrite IH.
Qed.

Lemma find_dir_in (n : text) (st : storage) (d : dirent) :
  find_dir n st = Some d -> In d st /\ d_name d = n /\ d_isDirectory d = true.
Proof.
  induction st as [|x st IH]; cbn [find_dir]; [discriminate|].
  destruct (is_dir_named n x) eqn:E.
  - intros H. injection H as <-. apply is_dir_named_spec in E.
    split; [now left | exact E].
  - intros H. destruct (IH H) as [Hin Hrest]. split; [now right | exact Hrest].
Qed.

Section ListingFacts.
Variable utf8_decode : list Byte.byte -> text.
Variable JSON_parse : text -> option json.
Variable toLowerCase : text -> text.
Variable Date_value : jsval -> option Z.

Lemma pdf_of_item_ext (fs fs' : option storage) (item : dirent) :
  readFile utf8_decode fs (d_name item) (lit "metadata.json")
  = readFile utf8_decode fs' (d_name item) (lit "metadata.json") ->
  pdf_of_item utf8_decode JSON_parse fs item
  = pdf_of_item utf8_decode JSON_parse fs' item.
Proof. intros H. unfold pdf_of_item. now rewrite H. Qed.

Lemma collect_pdfs_ext (fs fs' : option storage) (items : list dirent) :
  (forall n, readFile utf8_decode fs n (lit "metadata.json")
             = readFile utf8_decode fs' n (lit "metadata.json")) ->
  collect_pdfs utf8_decode JSON_parse fs items
  = collect_pdfs utf8_decode JSON_parse fs' items.
Proof.
  intros H. induction items as [|item items IH]; cbn [collect_pdfs];
    [reflexivity|].
  rewrite (pdf_of_item_ext fs fs' item (H _)), IH. reflexivity.
Qed.

Lemma collect_pdfs_app (fs : option storage) (a b : list dirent) :
  collect_pdfs utf8_decode JSON_parse fs (a ++ b)
  = collect_pdfs utf8_decode JSON_parse fs a
    ++ collect_pdfs utf8_decode JSON_parse fs b.
Proof.
  induction a as [|item a IH]; cbn [app collect_pdfs]; [reflexivity|].
  destruct (d_isDirectory item && negb (startsWith (lit "error_") (d_name item)));
    [|exact IH].
  destruct (pdf_of_item utf8_decode JSON_parse fs item); [|exact IH].
  cbn [app]. now rewrite IH.
Qed.

Lemma collect_pdfs_mkdir (fs : option storage) (n : text) (items : list dirent) :
  startsWith (lit "error_") n = true ->
  collect_pdfs utf8_decode JSON_parse fs (readdir (mkdir n items))
  = collect_pdfs utf8_decode JSON_parse fs (readdir items).
Proof.
  intros Hn. unfold mkdir. destruct (existsb (is_dir_named n) items);
    [reflexivity|].
  unfold readdir. rewrite filter_app, collect_pdfs_app. cbn [filter d_name].
  destruct (forallb (fun c => negb (N.eqb c slash)) n);
    cbn [collect_pdfs d_name d_isDirectory].
  - rewrite Hn. cbn [negb andb]. now rewrite app_nil_r.
  - now rewrite app_nil_r.
Qed.

Lemma collect_pdfs_writeFile (fs : option storage) (n f : text) (c : content)
    (items : list dirent) :
  startsWith (lit "error_") n = true ->
  collect_pdfs utf8_decode JSON_parse fs (readdir (writeFile n f c items))
  = collect_pdfs utf8_decode JSON_parse fs (readdir items).
Proof.
  intros Hn. unfold readdir.
  induction items as [|d items IH]; cbn [writeFile filter]; [reflexivity|].
  destruct (is_dir_named n d) eqn:E.
  - apply is_dir_named_spec in E as [E _]. cbn [filter d_name].
    destruct (forallb (fun c0 => negb (N.eqb c0 slash)) (d_name d));
      [|reflexivity].
    cbn [collect_pdfs d_name d_isDirectory]. rewrite E, Hn.
    cbn [negb andb]. now rewrite andb_false_r.
  - cbn [filter].
    destruct (forallb (fun c0 => negb (N.eqb c0 slash)) (d_name d));
      cbn [collect_pdfs]; now rewrite IH.
Qed.

Lemma collect_pdfs_complete (fs : option storage) (items : list dirent)
    (item : dirent) (p : pdf) :
  In item items ->
  d_isDirectory item = true ->
  startsWith (lit "error_") (d_name item) = false ->
  pdf_of_item utf8_decode JSON_parse fs item = Some p ->
  In p (collect_pdfs utf8_decode JSON_parse fs items).
Proof.
  intros Hin Hdir Hname Hp.
  induction items as [|x items IH]; [destruct Hin|].
  cbn [collect_pdfs]. destruct Hin as [-> | Hin].
  - rewrite Hdir, Hname, Hp. now left.
  - destruct (d_isDirectory x && negb (startsWith (lit "error_") (d_name x)));
      [|now apply IH].
    destruct (pdf_of_item utf8_decode JSON_parse fs x);
      [right|]; now apply IH.
Qed.

Lemma error_dir_prefix (clk : clock) (fileName : text) :
  startsWith (lit "error_") (error_dir_name clk fileName) = true.
Proof. apply startsWith_spec. unfold error_dir_name. now eexists. Qed.

Lemma readFile_after_error_record JSON_stringify (j : job) (clk : clock)
    (fileName : text) (e : error) (st : storage) (n f : text) :
  text_eqb f (lit "error.json") = false ->
  readFile utf8_decode
    (Some (save_error_record JSON_stringify j clk fileName e st)) n f
  = readFile utf8_decode (Some st) n f.
Proof.
  intros Hf.
  destruct (save_error_record_cases JSON_stringify j clk fileName e st)
    as [[_ ->] | [_ ->]]; [|reflexivity].
  rewrite !readFile_stored.
  rewrite stored_file_writeFile, Hf, andb_false_r, stored_file_mkdir.
  reflexivity.
Qed.

(** X10: a job that fails on its source file changes nothing of what the
    server shows: the list of documents and the results of every search
    are the same after it as before. *)
Theorem failed_job_keeps_listing getDocument embedContent JSON_stringify
    new_stack fs_read j clk st p e :
  or_text (data_file (data j)) (data_path (data j)) = Some p ->
  fs_read (replace_backslashes p) = Throw e ->
  let st' := snd (handler utf8_decode getDocument embedContent JSON_stringify
                    new_stack fs_read j clk st) in
  listProcessedPDFs utf8_decode JSON_parse Date_value (Some st')
  = listProcessedPDFs utf8_decode JSON_parse Date_value (Some st)
  /\ forall query pdfId,
       searchPDFs utf8_decode JSON_parse toLowerCase Date_value (Some st')
         query pdfId
       = searchPDFs utf8_decode JSON_parse toLowerCase Date_value (Some st)
           query pdfId.
Proof.
  intros Hpath Hread. unfold handler. rewrite Hpath, Hread. cbn [snd].
  set (fileName := basename (replace_backslashes p)).
  assert (Hlist :
    listProcessedPDFs utf8_decode JSON_parse Date_value
      (Some (save_error_record JSON_stringify j clk fileName e st))
    = listProcessedPDFs utf8_decode JSON_parse Date_value (Some st)).
  { unfold listProcessedPDFs. f_equal.
    rewrite (collect_pdfs_ext _ (Some st))
      by (intros n; apply readFile_after_error_record; reflexivity).
    destruct (save_error_record_cases JSON_stringify j clk fileName e st)
      as [[_ ->] | [_ ->]]; [|reflexivity].
    rewrite collect_pdfs_writeFile, collect_pdfs_mkdir
      by apply error_dir_prefix.
    reflexivity. }
  split; [exact Hlist|].
  intros query pdfId. unfold searchPDFs. rewrite Hlist. f_equal.
  apply flat_map_ext. intros pdf0. unfold search_one, getPDFContent.
  rewrite readFile_after_error_record by reflexivity. reflexivity.
Qed.


End ListingFacts.

Lemma failed_job_keeps_listing_witness :
  listProcessedPDFs ascii_decode sample_parse sample_date
    (Some (snd (handler ascii_decode broken_pdf no_quota sample_stringify
                  sample_stack sample_source missing_job sample_clock
                  (match read_storage with Some st => st | None => [] end))))
  = listProcessedPDFs ascii_decode sample_parse sample_date read_storage.
Proof.
  exact (proj1 (failed_job_keeps_listing ascii_decode sample_parse ascii_lower
                  sample_date broken_pdf no_quota sample_stringify sample_stack
                  sample_source missing_job sample_clock
                  (match read_storage with Some st => st | None => [] end)
                  (lit "uploads\gone.pdf")
                  (Error (lit "ENOENT: no such file or directory, access 'uploads/gone.pdf'")
                         (lit "Error: ENOENT"))
                  eq_refl eq_refl)).
Defined.



Lemma sanitize_app (a b : text) : sanitize (a ++ b) = sanitize a ++ sanitize b.
Proof. unfold sanitize. apply map_app. Qed.

Lemma error_prefix_kept (j : job) (clk : clock) (fileName : text) :
  startsWith (lit "error_") fileName = true ->
  startsWith (lit "error_") (document_dir_name j clk fileName) = true.
Proof.
  intros H. apply startsWith_spec in H as [r ->].
  apply startsWith_spec. unfold document_dir_name.
  rewrite sanitize_app, firstn_app.
  change (sanitize (lit "error_")) with (lit "error_").
  rewrite (firstn_all2 (n := 100) (lit "error_"))
    by (apply Nat.leb_le; vm_compute; reflexivity).
  eexists. rewrite <- !app_assoc. reflexivity.
Qed.



(** ** The upload route *)

Lemma replace_backslashes_id (s : text) :
  forallb (fun c => negb (N.eqb c backslash)) s = true ->
  replace_backslashes s = s.
Proof.
  unfold replace_backslashes. induction s as [|c s IH]; cbn [map forallb];
    [reflexivity|].
  intros H. apply andb_true_iff in H as [Hc Hs].
  apply negb_true_iff in Hc. now rewrite Hc, IH.
Qed.

Lemma digits_no_separator (d : text) :
  forallb is_digit d = true -> no_separator d.
Proof.
  unfold no_separator. rewrite !forallb_forall. intros H x Hx.
  specialize (H x Hx).
  destruct (N.eqb x slash) eqn:E1; [apply N.eqb_eq in E1; subst x; discriminate|].
  destruct (N.eqb x backslash) eqn:E2;
    [apply N.eqb_eq in E2; subst x; discriminate | reflexivity].
Qed.

Lemma no_separator_app (a b : text) :
  no_separator a -> no_separator b -> no_separator (a ++ b).
Proof. unfold no_separator. intros Ha Hb. now rewrite forallb_app, Ha, Hb. Qed.

Lemma no_separator_parts (s : text) :
  no_separator s ->
  no_slash s /\ forallb (fun c => negb (N.eqb c backslash)) s = true.
Proof.
  unfold no_separator, no_slash. rewrite !forallb_forall. intros H.
  split; intros x Hx; specialize (H x Hx);
    apply andb_true_iff in H; tauto.
Qed.

Lemma upload_filename_no_separator (now random : N) (original : text) :
  no_separator original -> no_separator (upload_filename now random original).
Proof.
  intros H. unfold upload_filename.
  repeat apply no_separator_app; try reflexivity; try assumption;
    apply digits_no_separator, decimal_digits.
Qed.

Lemma upload_filename_head (now random : N) (original : text) :
  exists c r, upload_filename now random original = c :: r /\ is_digit c = true.
Proof.
  unfold upload_filename. pose proof (decimal_digits now) as Hd.
  destruct (decimal now) as [|c d] eqn:E; [now apply decimal_not_nil in E|].
  cbn [forallb] in Hd. apply andb_true_iff in Hd as [Hc _].
  exists c. eexists. split; [cbn [app]; reflexivity | exact Hc].
Qed.

(** X13: a file taken by the upload route is never hidden.  When the
    original name holds no path separator and multer stored the file
    under [uploads/] with the name its [filename] function gave, the
    worker finds that name again as the file name of the job, and the
    directory of its record starts with a digit, not with [error_]. *)
Theorem uploaded_file_is_not_hidden queue_add f now random jobId clk :
  file_path f = lit "uploads/" ++ upload_filename now random (originalname f) ->
  no_separator (originalname f) ->
  queue_add (JobData None (Some (file_path f)) (Some (originalname f))) = Ok jobId ->
  exists d,
    upload_pdf queue_add (Some f) = (UploadQueued (originalname f) jobId, Some d)
    /\ or_text (data_file d) (data_path d) = Some (file_path f)
    /\ basename (replace_backslashes (file_path f))
       = upload_filename now random (originalname f)
    /\ startsWith (lit "error_")
         (document_dir_name (Job jobId d) clk
            (basename (replace_backslashes (file_path f)))) = false
    /\ exists c r,
         document_dir_name (Job jobId d) clk
           (basename (replace_backslashes (file_path f))) = c :: r
         /\ is_digit c = true.
Proof.
  intros Hpath Horig Hadd.
  exists (JobData None (Some (file_path f)) (Some (originalname f))).
  split; [unfold upload_pdf; now rewrite Hadd|].
  assert (Hnonempty : file_path f <> [])
    by (rewrite Hpath; discriminate).
  split.
  { cbn [data_file data_path or_text]. reflexivity. }
  pose proof (upload_filename_no_separator now random (originalname f) Horig)
    as Hname.
  destruct (no_separator_parts _ Hname) as [Hslash Hback].
  destruct (upload_filename_head now random (originalname f))
    as [c [r [Hhead Hc]]].
  assert (Hbase : basename (replace_backslashes (file_path f))
                  = upload_filename now random (originalname f)).
  { rewrite Hpath, replace_backslashes_id.
    - change (lit "uploads/" ++ upload_filename now random (originalname f))
        with (lit "uploads" ++ slash :: upload_filename now random (originalname f)).
      apply basename_join; [rewrite Hhead; discriminate | exact Hslash].
    - rewrite forallb_app, Hback. reflexivity. }
  split; [exact Hbase|].
  rewrite Hbase, Hhead. unfold document_dir_name.
  cbn [sanitize map].
  assert (Hsafe : is_safe_char c = true).
  { unfold is_digit in Hc. unfold is_safe_char. rewrite Hc.
    now rewrite !orb_true_r. }
  rewrite Hsafe. cbn [firstn app startsWith lit map list_ascii_of_string].
  assert (Hne : N.eqb 101 c = false).
  { apply N.eqb_neq. intros <-. vm_compute in Hc. discriminate. }
  change (N_of_ascii "e") with 101%N. rewrite Hne.
  split; [reflexivity|].
  exists c. eexists. split; [reflexivity | exact Hc].
Qed.

Lemma uploaded_file_is_not_hidden_witness :
  exists d,
    upload_pdf (fun _ => Ok (lit "7"))
      (Some (UploadedFile (lit "error_log.pdf") (lit "application/pdf")
               (lit "uploads/1700000000000-42-error_log.pdf")))
    = (UploadQueued (lit "error_log.pdf") (lit "7"), Some d)
    /\ startsWith (lit "error_")
         (document_dir_name (Job (lit "7") d) sample_clock
            (basename (replace_backslashes
                         (lit "uploads/1700000000000-42-error_log.pdf")))) = false.
Proof.
  destruct (uploaded_file_is_not_hidden (fun _ => Ok (lit "7"))
              (UploadedFile (lit "error_log.pdf") (lit "application/pdf")
                 (lit "uploads/1700000000000-42-error_log.pdf"))
              1700000000000%N 42%N (lit "7") sample_clock)
    as [d [Hrun [_ [_ Hdir]]]].
  - vm_compute. reflexivity.
  - vm_compute. reflexivity.
  - reflexivity.
  - exists d. split; [exact Hrun | exact (proj1 Hdir)].
Defined.

(** ** Further properties of the server *)

Section MoreServerFacts.
Variable utf8_decode : list Byte.byte -> text.
Variable JSON_parse : text -> option json.
Variable toLowerCase : text -> text.
Variable Date_value : jsval -> option Z.

(** X14: what [getPDFContent] returns is the stored text when it is
    within the bound, and else its first [maxLength] units followed by
    the note [... (truncated)] of 15 units; so it never has more than
    [maxLength + 15] units, and its first [maxLength] units are those of
    the stored text. *)
Theorem getPDFContent_bounds (fs : option storage) (pdfId content : text)
    (maxLength : nat) :
  getPDFContent utf8_decode fs pdfId maxLength = Some content ->
  exists text,
    readFile utf8_decode fs pdfId (lit "extracted_text.txt") = Some text
    /\ length content <= maxLength + 15
    /\ firstn maxLength content = firstn maxLength text
    /\ (length text <= maxLength -> content = text)
    /\ (maxLength < length text ->
        content = firstn maxLength text ++ lit "... (truncated)"
        /\ length content = maxLength + 15).
Proof.
  intros H. apply getPDFContent_spec in H as [text [Hread ->]].
  exists text. split; [exact Hread|].
  destruct (maxLength <? length text) eqn:E.
  - apply Nat.ltb_lt in E.
    assert (Hlen : length (firstn maxLength text) = maxLength)
      by (rewrite length_firstn; lia).
    split; [rewrite length_app, Hlen; cbn [length lit map list_ascii_of_string]; lia|].
    split.
    + rewrite firstn_app, Hlen, Nat.sub_diag, firstn_firstn, Nat.min_id.
      cbn [firstn]. now rewrite app_nil_r.
    + split; [lia|]. intros _. split; [reflexivity|].
      rewrite length_app, Hlen. reflexivity.
  - apply Nat.ltb_ge in E. split; [lia|]. split; [reflexivity|].
    split; [reflexivity | lia].
Qed.

Lemma sort_insert_latest (x : pdf) (l : list pdf) :
  Date_value (savedAt x) <> None ->
  (forall y, In y l -> Date_value (savedAt y) <> None) ->
  StronglySorted (latest_first Date_value) l ->
  StronglySorted (latest_first Date_value)
    (sort_insert (by_savedAt Date_value) x l).
Proof.
  intros Hx Hl Hs. induction Hs as [|y l Hs IH Hall]; cbn [sort_insert].
  - repeat constructor.
  - assert (Hy : Date_value (savedAt y) <> None) by (apply Hl; now left).
    destruct (Date_value (savedAt x)) as [tx|] eqn:Ex; [|contradiction].
    destruct (Date_value (savedAt y)) as [ty|] eqn:Ey; [|contradiction].
    unfold goes_after, by_savedAt. rewrite Ex, Ey.
    destruct (0 <? ty - tx)%Z eqn:E.
    + apply Z.ltb_lt in E. constructor.
      * apply IH. intros z Hz. apply Hl. now right.
      * apply Forall_forall. intros z Hz.
        apply (Permutation_in _ (sort_insert_perm _ _ x l)) in Hz.
        destruct Hz as [<- | Hz].
        -- exists ty, tx. repeat split; try assumption. lia.
        -- rewrite Forall_forall in Hall. now apply Hall.
    + apply Z.ltb_ge in E. constructor; [now constructor|].
      constructor; [exists tx, ty; repeat split; try assumption; lia|].
      apply Forall_forall. intros z Hz. rewrite Forall_forall in Hall.
      destruct (Hall z Hz) as [ty' [tz [Hy' [Hz' Hle]]]].
      rewrite Ey in Hy'. injection Hy' as <-.
      exists tx, tz. repeat split; try assumption. lia.
Qed.

Lemma js_sort_latest (l : list pdf) :
  (forall y, In y l -> Date_value (savedAt y) <> None) ->
  StronglySorted (latest_first Date_value) (js_sort (by_savedAt Date_value) l).
Proof.
  induction l as [|x l IH]; intros Hl; cbn [js_sort fold_right];
    [constructor|].
  apply sort_insert_latest.
  - apply Hl. now left.
  - intros y Hy. apply in_js_sort in Hy. apply Hl. now right.
  - apply IH. intros y Hy. apply Hl. now right.
Qed.

(** X15: when the [savedAt] of every listed document is a valid date,
    the list is ordered from the latest to the earliest; so the document
    [/chat] takes when no id is given is one saved last, and [/recent]
    shows documents saved no earlier than those it leaves out. *)
Theorem listing_latest_first (fs : option storage) :
  (forall p, In p (listProcessedPDFs utf8_decode JSON_parse Date_value fs) ->
             Date_value (savedAt p) <> None) ->
  StronglySorted (latest_first Date_value)
    (listProcessedPDFs utf8_decode JSON_parse Date_value fs)
  /\ (forall targetPdf p,
        resolve_target utf8_decode JSON_parse Date_value fs None = Target targetPdf ->
        In p (listProcessedPDFs utf8_decode JSON_parse Date_value fs) ->
        p = targetPdf \/ latest_first Date_value targetPdf p)
  /\ (forall shown left_out,
        In shown (recent utf8_decode JSON_parse Date_value fs) ->
        In left_out
          (skipn 5 (listProcessedPDFs utf8_decode JSON_parse Date_value fs)) ->
        latest_first Date_value shown left_out).
Proof.
  intros Hvalid.
  assert (Hsorted : StronglySorted (latest_first Date_value)
                      (listProcessedPDFs utf8_decode JSON_parse Date_value fs)).
  { unfold listProcessedPDFs in *. destruct fs as [st|]; [|constructor].
    apply js_sort_latest. intros y Hy. apply Hvalid. now apply in_js_sort. }
  split; [exact Hsorted|]. split.
  - intros targetPdf p Ht Hp. unfold resolve_target in Ht.
    destruct (listProcessedPDFs utf8_decode JSON_parse Date_value fs)
      as [|first rest]; [discriminate|].
    injection Ht as <-. destruct Hp as [-> | Hp]; [now left | right].
    apply StronglySorted_inv in Hsorted as [_ Hall].
    rewrite Forall_forall in Hall. now apply Hall.
  - unfold recent.
    generalize dependent (listProcessedPDFs utf8_decode JSON_parse Date_value fs).
    intros l _ Hsorted. generalize 5. intros n; revert l Hsorted.
    induction n as [|n IH]; intros l Hsorted shown left_out Hs Hl;
      [destruct Hs|].
    destruct l as [|x l]; [destruct Hs|].
    cbn [firstn skipn] in Hs, Hl.
    apply StronglySorted_inv in Hsorted as [Hsorted Hall].
    destruct Hs as [<- | Hs].
    + rewrite Forall_forall in Hall. apply Hall.
      rewrite <- (firstn_skipn n l). apply in_or_app. now right.
    + now apply (IH l Hsorted).
Qed.

Lemma search_one_shape (fs : option storage) (q : text) (p : pdf)
    (r : search_result) :
  In r (search_one utf8_decode toLowerCase fs q p) ->
  (sr_score r = 100%Z /\ sr_matchType r = text_search
   /\ exists v, sr_pageRef r = PageRef v)
  \/ (sr_score r = 80%Z /\ sr_matchType r = filename
      /\ sr_pageRef r = NoPageRef).
Proof.
  unfold search_one.
  destruct (getPDFContent utf8_decode fs (id p) 5000) as [[|c content]|];
    try (intros []).
  assert (Hhit : In r (if includes q (toLowerCase (c :: content))
                       then [content_result toLowerCase p q (c :: content)] else []) ->
                 (sr_score r = 100%Z /\ sr_matchType r = text_search
                  /\ exists v, sr_pageRef r = PageRef v)
                 \/ (sr_score r = 80%Z /\ sr_matchType r = filename
                     /\ sr_pageRef r = NoPageRef)).
  { destruct (includes q (toLowerCase (c :: content))); [|intros []].
    intros [<- | []]. left. repeat split. now eexists. }
  destruct (name p) as [[| | |n| |]|]; try exact Hhit.
  intros H. apply in_app_or in H as [H | H]; [now apply Hhit|].
  destruct (includes q (toLowerCase n)); [|destruct H].
  destruct H as [<- | []]. right. now repeat split.
Qed.

Lemma search_one_length (fs : option storage) (q : text) (p : pdf) :
  length (search_one utf8_decode toLowerCase fs q p) <= 2.
Proof.
  unfold search_one.
  destruct (getPDFContent utf8_decode fs (id p) 5000) as [[|c content]|];
    try (cbn [length]; lia).
  destruct (includes q (toLowerCase (c :: content)));
    destruct (name p) as [[| | |n| |]|]; cbn [length app]; try lia;
    destruct (includes q (toLowerCase n)); cbn [length]; lia.
Qed.

Lemma length_flat_map_bound (A B : Type) (f : A -> list B) (n : nat)
    (l : list A) :
  (forall x, length (f x) <= n) -> length (flat_map f l) <= n * length l.
Proof.
  intros Hf. induction l as [|x l IH]; cbn [flat_map length]; [lia|].
  rewrite length_app. specialize (Hf x). lia.
Qed.

Lemma search_shape (fs : option storage) (query : text) (pdfId : option text)
    (r : search_result) :
  In r (searchPDFs utf8_decode JSON_parse toLowerCase Date_value fs query pdfId) ->
  (sr_score r = 100%Z /\ sr_matchType r = text_search
   /\ exists v, sr_pageRef r = PageRef v)
  \/ (sr_score r = 80%Z /\ sr_matchType r = filename
      /\ sr_pageRef r = NoPageRef).
Proof.
  intros Hr. apply in_search in Hr as [p [_ Hr]].
  now apply search_one_shape in Hr.
Qed.

(** The first result is a content match when there is one. *)
Lemma search_best_match (fs : option storage) (query : text)
    (pdfId : option text) (best r : search_result) (rest : list search_result) :
  searchPDFs utf8_decode JSON_parse toLowerCase Date_value fs query pdfId
  = best :: rest ->
  In r (best :: rest) ->
  sr_matchType r = text_search ->
  sr_matchType best = text_search /\ sr_score best = 100%Z.
Proof.
  intros Hres Hr Hkind.
  pose proof (js_sort_descending
                (flat_map (search_one utf8_decode toLowerCase fs
                             (toLowerCase query))
                   (pdfsToSearch
                      (listProcessedPDFs utf8_decode JSON_parse Date_value fs)
                      pdfId))) as Hsorted.
  fold (searchPDFs utf8_decode JSON_parse toLowerCase Date_value fs query pdfId)
    in Hsorted.
  assert (Hshape : forall x, In x (best :: rest) ->
     (sr_score x = 100%Z /\ sr_matchType x = text_search
      /\ exists v, sr_pageRef x = PageRef v)
     \/ (sr_score x = 80%Z /\ sr_matchType x = filename
         /\ sr_pageRef x = NoPageRef)).
  { intros x Hx. rewrite <- Hres in Hx. now apply search_shape in Hx. }
  rewrite Hres in Hsorted.
  destruct (Hshape r Hr) as [[Hr100 _] | [_ [Hf _]]]; [|congruence].
  destruct (Hshape best (or_introl eq_refl)) as [[Hb [Hk _]] | [Hb80 _]];
    [now split|].
  exfalso. destruct Hr as [<- | Hr]; [lia|].
  apply StronglySorted_inv in Hsorted as [_ Hall].
  rewrite Forall_forall in Hall. specialize (Hall r Hr).
  unfold descending in Hall. lia.
Qed.

(** X16: the results of a search.  Each is a content match of score 100
    with a page reference, or a filename match of score 80 without one;
    there are at most twice as many as documents searched; under a [pdfId]
    they all belong to that document; and when a content match is among
    them, the first result is a content match. *)
Theorem search_results_shape (fs : option storage) (query : text)
    (pdfId : option text) :
  let results :=
    searchPDFs utf8_decode JSON_parse toLowerCase Date_value fs query pdfId in
  (forall r, In r results ->
     (sr_score r = 100%Z /\ sr_matchType r = text_search
      /\ exists v, sr_pageRef r = PageRef v)
     \/ (sr_score r = 80%Z /\ sr_matchType r = filename
         /\ sr_pageRef r = NoPageRef))
  /\ length results
     <= 2 * length (pdfsToSearch
                      (listProcessedPDFs utf8_decode JSON_parse Date_value fs)
                      pdfId)
  /\ (forall c s r, pdfId = Some (c :: s) -> In r results -> sr_pdfId r = c :: s)
  /\ (forall best rest r,
        results = best :: rest -> In r results ->
        sr_matchType r = text_search ->
        sr_matchType best = text_search /\ sr_score best = 100%Z).
Proof.
  intros results. split; [intros r; apply search_shape|]. split; [|split].
  - subst results. unfold searchPDFs.
    rewrite (Permutation_length (js_sort_perm _ _ _)).
    apply length_flat_map_bound. intros p. apply search_one_length.
  - intros c s r -> Hr. apply in_search in Hr as [p [Hp Hr]].
    rewrite (search_one_pdfId _ _ _ _ _ _ Hr).
    cbn [pdfsToSearch] in Hp. apply filter_In in Hp as [_ Hp].
    now apply text_eqb_eq in Hp.
  - intros best rest r Hres Hr Hkind. subst results. rewrite Hres in Hr.
    now apply (search_best_match fs query pdfId best r rest).
Qed.

End MoreServerFacts.

Lemma getPDFContent_bounds_witness :
  exists text,
    readFile ascii_decode read_storage (lit "report.pdf_7_1700000000000")
      (lit "extracted_text.txt") = Some text
    /\ getPDFContent ascii_decode read_storage
         (lit "report.pdf_7_1700000000000") 8
       = Some (lit "[Page 4]... (truncated)").
Proof.
  destruct (getPDFContent_bounds ascii_decode read_storage
              (lit "report.pdf_7_1700000000000")
              (lit "[Page 4]... (truncated)") 8 eq_refl)
    as [text [Hread _]].
  exists text. split; [exact Hread | reflexivity].
Defined.

Lemma listing_latest_first_witness :
  (forall p,
      In p (listProcessedPDFs ascii_decode dated_parse january_date dated_storage) ->
      january_date (savedAt p) <> None)
  /\ map id (listProcessedPDFs ascii_decode dated_parse january_date dated_storage)
     = map dated_id [6; 5; 4; 3; 2; 1]%N
  /\ StronglySorted (latest_first january_date)
       (listProcessedPDFs ascii_decode dated_parse january_date dated_storage)
  /\ (exists targetPdf,
        resolve_target ascii_decode dated_parse january_date dated_storage None
        = Target targetPdf
        /\ id targetPdf = dated_id 6
        /\ forall p,
             In p (listProcessedPDFs ascii_decode dated_parse january_date
                     dated_storage) ->
             p = targetPdf \/ latest_first january_date targetPdf p)
  /\ map id (recent ascii_decode dated_parse january_date dated_storage)
     = map dated_id [6; 5; 4; 3; 2]%N
  /\ map id
       (skipn 5 (listProcessedPDFs ascii_decode dated_parse january_date
                   dated_storage))
     = [dated_id 1]
  /\ (forall shown left_out,
        In shown (recent ascii_decode dated_parse january_date dated_storage) ->
        In left_out
          (skipn 5 (listProcessedPDFs ascii_decode dated_parse january_date
                      dated_storage)) ->
        latest_first january_date shown left_out).
Proof.
  assert (H : forall p,
             In p (listProcessedPDFs ascii_decode dated_parse january_date
                     dated_storage) ->
             january_date (savedAt p) <> None).
  { intros p Hp. vm_compute in Hp.
    repeat (destruct Hp as [<- | Hp]; [vm_compute; discriminate|]).
    destruct Hp. }
  destruct (listing_latest_first ascii_decode dated_parse january_date
              dated_storage H) as [Hsorted [Htarget Hrecent]].
  split; [exact H|].
  split; [vm_compute; reflexivity|].
  split; [exact Hsorted|].
  split.
  { eexists. split; [vm_compute; reflexivity|].
    split; [vm_compute; reflexivity|].
    intros p Hp. apply Htarget; [vm_compute; reflexivity | exact Hp]. }
  split; [vm_compute; reflexivity|].
  split; [vm_compute; reflexivity|].
  exact Hrecent.
Defined.

Lemma search_results_shape_witness :
  In (filename_result report_pdf (lit "report.pdf"))
    (searchPDFs ascii_decode sample_parse ascii_lower sample_date read_storage
       (lit "report") (Some (lit "report.pdf_7_1700000000000")))
  /\ sr_pdfId (filename_result report_pdf (lit "report.pdf"))
     = lit "report.pdf_7_1700000000000".
Proof.
  assert (Hin : In (filename_result report_pdf (lit "report.pdf"))
                  (searchPDFs ascii_decode sample_parse ascii_lower sample_date
                     read_storage (lit "report")
                     (Some (lit "report.pdf_7_1700000000000"))))
    by (vm_compute; left; reflexivity).
  split; [exact Hin|].
  exact (proj1 (proj2 (proj2 (search_results_shape ascii_decode sample_parse
                                ascii_lower sample_date read_storage
                                (lit "report")
                                (Some (lit "report.pdf_7_1700000000000")))))
           114%N (skipn 1 (lit "report.pdf_7_1700000000000")) _ eq_refl Hin).
Defined.


(** ** The AI answer and the route [/chat] *)

Section ChatFacts.
Variable utf8_decode : list Byte.byte -> text.
Variable JSON_parse : text -> option json.
Variable toLowerCase : text -> text.
Variable Date_value : jsval -> option Z.
Variable ToString : jsval -> text.
Variable generateContent : text -> text -> result text.
Variable new_stack : text -> text.

Lemma try_models_all_fail (prompt : text) :
  forall names lastError tried,
    (forall m, In m names -> exists e, generateContent m prompt = Throw e) ->
    exists e,
      try_models generateContent new_stack names prompt lastError tried
      = (Throw e, tried ++ names).
Proof.
  induction names as [|m names IH]; intros lastError tried Hfail;
    cbn [try_models].
  - eexists. now rewrite app_nil_r.
  - destruct (Hfail m (or_introl eq_refl)) as [e He]. rewrite He.
    destruct (IH (Some e) (tried ++ [m])) as [e' He'].
    + intros m' Hm'. apply Hfail. now right.
    + exists e'. rewrite He'. now rewrite <- app_assoc.
Qed.

Lemma try_models_first_success (prompt : text) :
  forall before m after answer lastError tried,
    (forall m', In m' before -> exists e, generateContent m' prompt = Throw e) ->
    generateContent m prompt = Ok answer ->
    try_models generateContent new_stack (before ++ m :: after) prompt
      lastError tried
    = (Ok answer, tried ++ before ++ [m]).
Proof.
  induction before as [|b before IH]; intros m after answer lastError tried
    Hfail Hok; cbn [app try_models].
  - now rewrite Hok.
  - destruct (Hfail b (or_introl eq_refl)) as [e He]. rewrite He.
    rewrite (IH m after answer (Some e) (tried ++ [b])); try assumption.
    + now rewrite <- app_assoc.
    + intros m' Hm'. apply Hfail. now right.
Qed.

Lemma try_models_tried (prompt : text) :
  forall names lastError tried,
    exists called,
      snd (try_models generateContent new_stack names prompt lastError tried)
      = tried ++ called
      /\ length called <= length names
      /\ (names <> [] -> called <> []).
Proof.
  induction names as [|m names IH]; intros lastError tried; cbn [try_models].
  - exists []. cbn [snd]. rewrite app_nil_r.
    split; [reflexivity|]. split; [cbn [length]; lia | tauto].
  - destruct (generateContent m prompt) as [answer | e].
    + exists [m]. cbn [snd length].
      split; [reflexivity|]. split; [lia | discriminate].
    + destruct (IH (Some e) (tried ++ [m])) as [called [Hs [Hl _]]].
      exists (m :: called). rewrite Hs, <- app_assoc. cbn [app length].
      split; [reflexivity|]. split; [lia | discriminate].
Qed.


Lemma getAIAnswer_tried (question pdfContent : text) (pdfName : jsval) :
  snd (getAIAnswer ToString generateContent new_stack question pdfContent pdfName)
  <> [].
Proof.
  unfold getAIAnswer.
  destruct (try_models_tried (ai_prompt ToString question pdfContent pdfName)
              modelNames None []) as [called [Hs [_ Hne]]].
  destruct (try_models generateContent new_stack modelNames
              (ai_prompt ToString question pdfContent pdfName) None [])
    as [[answer | e] tried]; cbn [snd] in *; subst tried;
    apply Hne; discriminate.
Qed.

Ltac no_call :=
  cbn [fst snd];
  split;
  [ split;
    [ intros H; now contradiction H
    | intros (m0 & t0 & s0 & h0 & n0 & H); discriminate H ]
  | split; [ intros H; now contradiction H | intros _; reflexivity ] ].

Abbreviation chat' :=
  (chat utf8_decode JSON_parse toLowerCase Date_value ToString generateContent
     new_stack).



End ChatFacts.

Lemma lookup_file_in (file : text) (files : list (text * content)) (c : content) :
  lookup_file file files = Some c -> In file (map fst files).
Proof.
  induction files as [|[n c0] files IH]; cbn [lookup_file map fst];
    [discriminate|].
  destruct (text_eqb n file) eqn:E.
  - apply text_eqb_eq in E. intros _. now left.
  - intros H. right. now apply IH.
Qed.

(** X20: for an id that names a child of the storage directory (it
    holds no [/] and is not [.] or [..]), [/pdf/:id] answers 404
    [PDF not found] exactly when the storage tree has no entry of that
    name and none below it, and 404 when [metadata.json] is missing, does
    not parse or parses to a falsy value; it never fails with 500 on what
    the storage tree holds.  When it answers with the details, they are
    those of the id asked, the preview has at most 1015 units, [hasText]
    tells whether there is a preview, and [metadata.json] is among the
    files. *)
Theorem pdf_details_cases utf8_decode JSON_parse (fs : option storage)
    (pdfId : text) :
  entry_name pdfId = true ->
  pdf_details utf8_decode JSON_parse fs pdfId <> DetailsFailed
  /\ (pdf_details utf8_decode JSON_parse fs pdfId = DetailsNoPdf
      <-> path_exists fs pdfId = false)
  /\ (path_exists fs pdfId = true
      <-> exists st d,
            fs = Some st /\ In d st
            /\ (d_name d = pdfId
                \/ startsWith (pdfId ++ [slash]) (d_name d) = true))
  /\ (getPDFMetadata utf8_decode JSON_parse fs pdfId = None ->
      pdf_details utf8_decode JSON_parse fs pdfId = DetailsNoPdf
      \/ pdf_details utf8_decode JSON_parse fs pdfId = DetailsNoMetadata)
  /\ forall shown metadata contentPreview files hasText,
       pdf_details utf8_decode JSON_parse fs pdfId
       = Details shown metadata contentPreview files hasText ->
       shown = pdfId
       /\ getPDFMetadata utf8_decode JSON_parse fs pdfId = Some metadata
       /\ truthy (Some metadata) = true
       /\ contentPreview = getPDFContent utf8_decode fs pdfId 1000
       /\ (hasText = true <-> contentPreview <> None)
       /\ (forall c, contentPreview = Some c -> length c <= 1015)
       /\ In (lit "metadata.json") files.
Proof.
  intros Hentry.
  assert (Hexists_spec :
    path_exists fs pdfId = true
    <-> exists st d,
          fs = Some st /\ In d st
          /\ (d_name d = pdfId
              \/ startsWith (pdfId ++ [slash]) (d_name d) = true)).
  { unfold entry_name in Hentry.
    apply andb_true_iff in Hentry as [Hentry _].
    apply andb_true_iff in Hentry as [Hentry Hdots].
    apply andb_true_iff in Hentry as [_ Hdot].
    apply negb_true_iff in Hdots, Hdot.
    unfold path_exists. rewrite Hdots, Hdot. cbn [orb].
    destruct fs as [st|];
      [|split; [discriminate | intros [st [d [Hfs _]]]; discriminate]].
    rewrite existsb_exists. split.
    - intros [d [Hin Hd]]. exists st, d. split; [reflexivity|].
      split; [exact Hin|].
      apply orb_true_iff in Hd as [Hd | Hd];
        [left; now apply text_eqb_eq | now right].
    - intros [st0 [d [Hfs [Hin Hd]]]]. injection Hfs as <-.
      exists d. split; [exact Hin|]. apply orb_true_iff.
      destruct Hd as [Hd | Hd]; [left; now apply text_eqb_eq | now right]. }
  split; [|split; [|split; [exact Hexists_spec|]]].
  - unfold pdf_details.
    destruct (path_exists fs pdfId); [|discriminate].
    destruct (getPDFMetadata utf8_decode JSON_parse fs pdfId) as [metadata|]
      eqn:Hmeta; [|discriminate].
    destruct (truthy (Some metadata)); [|discriminate].
    unfold getPDFMetadata, readFile in Hmeta.
    destruct fs as [st|]; [|discriminate].
    destruct (find_dir pdfId st); discriminate.
  - unfold pdf_details.
    destruct (path_exists fs pdfId); [|split; reflexivity].
    destruct (getPDFMetadata utf8_decode JSON_parse fs pdfId) as [metadata|];
      [|split; discriminate].
    destruct (truthy (Some metadata)); [|split; discriminate].
    destruct fs as [st|]; [|split; discriminate].
    destruct (find_dir pdfId st); split; discriminate.
  - split.
    + intros Hnone. unfold pdf_details. rewrite Hnone.
      destruct (path_exists fs pdfId); [now right | now left].
    + unfold pdf_details.
      destruct (path_exists fs pdfId); [|discriminate].
      destruct (getPDFMetadata utf8_decode JSON_parse fs pdfId) as [metadata|]
        eqn:Hmeta; [|discriminate].
      destruct (truthy (Some metadata)) eqn:Htruthy; [|discriminate].
      unfold getPDFMetadata, readFile in Hmeta.
      destruct fs as [st|]; [|discriminate].
      destruct (find_dir pdfId st) as [d|] eqn:Hfind; [|discriminate].
      destruct (lookup_file (lit "metadata.json") (d_files d)) as [c|] eqn:Hfile;
        [|discriminate].
      intros shown metadata0 contentPreview files hasText H.
      injection H as <- <- <- <- <-.
      split; [reflexivity|].
      split; [reflexivity|].
      split; [exact Htruthy|]. split; [reflexivity|].
      split.
      { destruct (getPDFContent utf8_decode (Some st) pdfId 1000);
          split; try discriminate; try reflexivity; intros H; now contradiction H. }
      split.
      * intros c0 Hc. apply getPDFContent_spec in Hc as [text [_ ->]].
        destruct (1000 <? length text) eqn:E.
        -- rewrite length_app, length_firstn.
           cbn [length lit map list_ascii_of_string]. lia.
        -- apply Nat.ltb_ge in E. lia.
      * apply in_or_app. left. now apply lookup_file_in in Hfile.
Qed.




Lemma pdf_details_cases_witness :
  entry_name (lit "report.pdf_7_1700000000000") = true
  /\ pdf_details ascii_decode sample_parse read_storage (lit "missing.pdf_1_1")
     = DetailsNoPdf
  /\ exists contentPreview files,
       pdf_details ascii_decode sample_parse read_storage
         (lit "report.pdf_7_1700000000000")
       = Details (lit "report.pdf_7_1700000000000") report_metadata contentPreview
           files true
       /\ In (lit "metadata.json") files.
Proof.
  split; [reflexivity|].
  split.
  { apply (proj1 (proj2 (pdf_details_cases ascii_decode sample_parse read_storage
                           (lit "missing.pdf_1_1") eq_refl))).
    vm_compute. reflexivity. }
  assert (H : pdf_details ascii_decode sample_parse read_storage
                (lit "report.pdf_7_1700000000000")
              = Details (lit "report.pdf_7_1700000000000") report_metadata
                  (Some report_text)
                  [lit "metadata.json"; lit "extracted_text.txt"] true)
    by (vm_compute; reflexivity).
  exists (Some report_text), [lit "metadata.json"; lit "extracted_text.txt"].
  split; [exact H|].
  destruct (pdf_details_cases ascii_decode sample_parse read_storage
              (lit "report.pdf_7_1700000000000") eq_refl) as [_ [_ [_ [_ Hd]]]].
  destruct (Hd _ _ _ _ _ H) as [_ [_ [_ [_ [_ [_ Hin]]]]]].
  exact Hin.
Defined.
